(** * BenchExec: the cgroups availability check ([benchexec/check_cgroups.py])

    A shallow embedding of [check_cgroup_availability], of the thread wrapper
    [check_cgroup_availability_in_thread] with its class
    [_CheckCgroupsThread], and of [main], followed by the properties of the
    check.

    Python text strings are modelled by [string], a character being a code
    point below 256; Python integers by [Z].  An exception is a value of
    [BaseException].  A computation is the list of the observable events it
    performed together with its outcome, a returned value or a raised
    exception.  What the checker calls outside its own file (the run
    executor, the cgroup classes, the placement extractor) is a field of
    [Platform]: the behaviour of each such call is a parameter of the
    model. *)

From Stdlib Require Import ZArith Ascii String List Bool DecimalString DecimalZ DecimalPos.
From stdpp Require Import base gmap strings list.

Local Open Scope Z_scope.

(** ** Python string operations used by the checker *)

Module PyStr.

(** [c.isspace()] for one character, for the code points below 256. *)
Definition isspace (c : ascii) : bool :=
  let n := N_of_ascii c in
  ((9 <=? n) && (n <=? 13) || (28 <=? n) && (n <=? 32)
   || (n =? 133) || (n =? 160))%N.

(** [s.lstrip()] *)
Fixpoint lstrip (s : string) : string :=
  match s with
  | EmptyString => EmptyString
  | String c s' => if isspace c then lstrip s' else s
  end.

(** [s.rstrip()] *)
Fixpoint rstrip (s : string) : string :=
  match s with
  | EmptyString => EmptyString
  | String c s' =>
      match rstrip s' with
      | EmptyString => if isspace c then EmptyString else String c EmptyString
      | r => String c r
      end
  end.

(** [s.strip()] *)
Definition strip (s : string) : string := rstrip (lstrip s).

(** [s.startswith(p)] *)
Fixpoint startswith (s p : string) {struct p} : bool :=
  match p, s with
  | EmptyString, _ => true
  | String _ _, EmptyString => false
  | String b p', String a s' => if Ascii.eqb a b then startswith s' p' else false
  end.

(** [s.endswith(c)] for a single character [c]. *)
Fixpoint endswith_char (s : string) (c : ascii) : bool :=
  match s with
  | EmptyString => false
  | String a EmptyString => Ascii.eqb a c
  | String _ s' => endswith_char s' c
  end.

(** [all(c == ch for c in s)] *)
Fixpoint all_eq (ch : ascii) (s : string) : bool :=
  match s with
  | EmptyString => true
  | String c s' => Ascii.eqb c ch && all_eq ch s'
  end.

(** The truth value of a string, [bool(s)]: false exactly for the empty
    string. *)
Definition truthy (s : string) : bool :=
  match s with EmptyString => false | String _ _ => true end.

(** [str(n)] for an [int] [n], which is what the f-string field [{n}]
    inserts: the decimal of [n].  (Beyond the interpreter's limit on decimal
    conversions, 4300 digits by default, [str] raises [ValueError]; the
    function gives the decimal there as well.) *)
Definition str_of_int (n : Z) : string := NilZero.string_of_int (Z.to_int n).

(** [os.path.join(a, b)] of [posixpath], for two components. *)
Definition path_join (a b : string) : string :=
  if startswith b "/" then b
  else if negb (truthy a) || endswith_char a "/" then a +:+ b
  else a +:+ "/" +:+ b.

(** The value of a decimal digit. *)
Definition digit_value (c : ascii) : option Z :=
  let n := N_of_ascii c in
  if ((48 <=? n) && (n <=? 57))%N then Some (Z.of_N n - 48) else None.

(** The digits of an integer literal, single underscores allowed between
    digits; [acc] is the value read so far. *)
Fixpoint int_digits (s : string) (acc : Z) : option Z :=
  match s with
  | EmptyString => None
  | String c rest =>
      match digit_value c with
      | None => None
      | Some d =>
          let acc' := 10 * acc + d in
          match rest with
          | EmptyString => Some acc'
          | String "_" rest' =>
              match rest' with
              | EmptyString => None
              | String _ _ => int_digits rest' acc'
              end
          | String _ _ => int_digits rest acc'
          end
      end
  end.

(** The whitespace that [int] skips at the two ends of its argument: the
    ASCII whitespace (tab to carriage return, and space), and the two other
    whitespace characters below 256, U+0085 and U+00A0, which the
    conversion turns into spaces first.  The separators U+001C to U+001F,
    which [str.strip] removes, are no whitespace for [int]. *)
Definition int_isspace (c : ascii) : bool :=
  let n := N_of_ascii c in
  ((9 <=? n) && (n <=? 13) || (n =? 32) || (n =? 133) || (n =? 160))%N.

Fixpoint int_lstrip (s : string) : string :=
  match s with
  | EmptyString => EmptyString
  | String c s' => if int_isspace c then int_lstrip s' else s
  end.

Fixpoint int_rstrip (s : string) : string :=
  match s with
  | EmptyString => EmptyString
  | String c s' =>
      match int_rstrip s' with
      | EmptyString => if int_isspace c then EmptyString else String c EmptyString
      | r => String c r
      end
  end.

(** The number of digits in a string. *)
Fixpoint digit_count (s : string) : nat :=
  match s with
  | EmptyString => O
  | String c s' =>
      match digit_value c with
      | Some _ => S (digit_count s')
      | None => digit_count s'
      end
  end.

(** [sys.int_info.default_max_str_digits]: the most digits that [int]
    converts. *)
Definition max_str_digits : Z := 4300.

(** [int(s)] for a string [s]; [None] stands for [ValueError]. *)
Definition int_of_str (s : string) : option Z :=
  if max_str_digits <? Z.of_nat (digit_count s) then None
  else
    match int_rstrip (int_lstrip s) with
    | String "-" r => Z.opp <$> int_digits r 0
    | String "+" r => int_digits r 0
    | r => int_digits r 0
    end.

End PyStr.

(** A string of whitespace characters only. *)
Definition whitespace (s : string) : Prop :=
  Forall (fun c => PyStr.isspace c = true) (list_ascii_of_string s).

(** ** Cgroup subsystems and cgroup snapshots *)

(** Modelled from the spec: the constants [CPUACCT], [CPUSET], [FREEZER] and
    [MEMORY] are imported from [benchexec.cgroups], which is not among the
    checked sources.  The spec describes them as a fixed, closed enumeration
    of the cgroup controllers of interest. *)
Inductive Subsystem : Type := CPUACCT | CPUSET | FREEZER | MEMORY.

#[global] Instance Subsystem_eq_dec : EqDecision Subsystem.
Proof. solve_decision. Defined.

Definition Subsystem_to_nat (s : Subsystem) : nat :=
  match s with CPUACCT => 0 | CPUSET => 1 | FREEZER => 2 | MEMORY => 3 end%nat.

Definition Subsystem_of_nat (n : nat) : option Subsystem :=
  match n with
  | 0 => Some CPUACCT | 1 => Some CPUSET | 2 => Some FREEZER | 3 => Some MEMORY
  | _ => None
  end%nat.

#[global] Instance Subsystem_countable : Countable Subsystem.
Proof.
  refine (inj_countable Subsystem_to_nat Subsystem_of_nat _).
  intros []; reflexivity.
Defined.

(** Modelled from the spec: the class [benchexec.cgroups.Cgroup] is not
    among the checked sources.  The spec describes the caller's snapshot and
    the placement result alike as a mapping from subsystem to cgroup path;
    the checker reads it with [subsystem in cgroups] and
    [cgroups[subsystem]], which follow the mapping protocol of Python: the
    subscription of an absent key raises [KeyError]. *)
Abbreviation Cgroup := (gmap Subsystem string).

(** [subsystem in cgroups] *)
Definition contains (cgroups : Cgroup) (subsystem : Subsystem) : bool :=
  bool_decide (is_Some (cgroups !! subsystem)).

(** ** Exceptions, events and computations *)

Inductive BaseException : Type :=
| SystemExit (code : Z)
| KeyError (key : Subsystem)
| KeyboardInterrupt
| OtherException (cls : string) (message : string).

#[global] Instance BaseException_eq_dec : EqDecision BaseException.
Proof. solve_decision. Defined.

(** The arguments of one call of [RunExecutor.execute_run]. *)
Record ProbeSpec : Type := mkProbeSpec {
  args : list string;
  output_filename : string;
  memlimit : Z;
  cores : list Z;
  memory_nodes : list Z
}.

(** The observable events of a run: a call of the probe executor, a warning
    written to the log (with its three format arguments), the start and the
    join of a worker thread, and an event that happened on a worker
    thread. *)
Inductive Event : Type :=
| EvExecuteRun (spec : ProbeSpec)
| EvWarning (actual : string) (subsystem : Subsystem) (own : string)
| EvThreadStart
| EvThreadJoin
| EvInThread (e : Event).

Inductive Outcome (A : Type) : Type :=
| Returned (a : A)
| Raised (e : BaseException).
Arguments Returned {A} a.
Arguments Raised {A} e.

(** A computation: the events it performed, in order, and how it ended. *)
Definition M (A : Type) : Type := (list Event * Outcome A)%type.

Definition trace {A} (m : M A) : list Event := fst m.
Definition outcome {A} (m : M A) : Outcome A := snd m.

#[global] Instance M_ret : MRet M := fun A a => ([], Returned a).

#[global] Instance M_bind : MBind M := fun A B k m =>
  match m with
  | (t, Returned a) => let '(t', o) := k a in (t ++ t', o)
  | (t, Raised e) => (t, Raised e)
  end.

(** The value that a computation returned, if it returned. *)
Definition outcome_value {A} (m : M A) : option A :=
  match outcome m with Returned a => Some a | Raised _ => None end.

(** [raise e] *)
Definition raise {A} (e : BaseException) : M A := ([], Raised e).

(** An event is performed. *)
Definition emit (ev : Event) : M unit := ([ev], Returned tt).

(** The result of a call into code outside the checker. *)
Definition call {A} (o : Outcome A) : M A := ([], o).

(** [sys.exit(code)] *)
Definition sys_exit (code : Z) : M unit := raise (SystemExit code).

(** [for x in xs: body], the loop body threading the local variables [s]. *)
Fixpoint for_each {A S : Type} (xs : list A) (body : A -> S -> M S) (s : S) : M S :=
  match xs with
  | [] => mret s
  | x :: xs' => s' ← body x s; for_each xs' body s'
  end.

(** [try: body except BaseException as e: handler] *)
Definition try_except {A} (body : M A) (handler : BaseException -> M A) : M A :=
  match body with
  | (t, Returned a) => (t, Returned a)
  | (t, Raised e) => let '(t', o) := handler e in (t ++ t', o)
  end.

(** [cgroups[subsystem]] *)
Definition getitem (cgroups : Cgroup) (subsystem : Subsystem) : M string :=
  match cgroups !! subsystem with
  | Some path => mret path
  | None => raise (KeyError subsystem)
  end.

(** [logging.warning("Task was in cgroup %s for subsystem %s, which is not
    the expected sub-cgroup of %s. ...", actual, subsystem, own)] *)
Definition logging_warning (actual : string) (subsystem : Subsystem) (own : string) : M unit :=
  emit (EvWarning actual subsystem own).

(** ** The platform *)

(** The parsed command line: [options.wait] and [options.no_thread]. *)
Record Namespace : Type := mkNamespace {
  wait : Z;
  no_thread : bool
}.

(** Everything the checker calls outside its own file; each call returns a
    value or raises. *)
Record Platform : Type := mkPlatform {
  (** [RunExecutor(use_namespaces=False).cgroups]: the caller's own cgroups. *)
  runexecutor_cgroups : Cgroup;
  (** [Cgroup.get_value(subsystem, option)] of [benchexec.cgroups]. *)
  get_value : Cgroup -> Subsystem -> string -> Outcome string;
  (** [Cgroup.read_allowed_memory_banks()] of [benchexec.cgroups]. *)
  read_allowed_memory_banks : Cgroup -> Outcome (list Z);
  (** [util.parse_int_list(s)] of [benchexec.util]. *)
  parse_int_list : string -> Outcome (list Z);
  (** The name of the temporary file, [tmp.name]. *)
  tmp_name : string;
  (** The probe executor: what [RunExecutor.execute_run] leaves in the
      output file (its lines, as iterating over the file yields them), or
      the exception it raises. *)
  probe_executor : ProbeSpec -> Outcome (list string);
  (** [benchexec.cgroups.find_my_cgroups(lines, fallback)]: the placement
      extractor. *)
  find_my_cgroups : list string -> bool -> Outcome Cgroup;
  (** [sys.argv] *)
  sys_argv : list string;
  (** What [parser.parse_args] does on a command line outside the modelled
      ones, see [parse_args]. *)
  argparse_other : list string -> Outcome Namespace
}.

(** ** The availability check *)

(** The probe command, and the line with which a shell may echo it. *)
Definition probe_command (wait : Z) : string :=
  "sleep " +:+ PyStr.str_of_int wait +:+ "; cat /proc/self/cgroup".

Definition echoed_command (wait : Z) : string :=
  "sh -c 'sleep " +:+ PyStr.str_of_int wait +:+ "; cat /proc/self/cgroup'".

(** Lines 56-60: the three tests on a stripped line. *)
Definition keep_line (wait : Z) (line : string) : bool :=
  PyStr.truthy line
  && negb (String.eqb line (echoed_command wait))
  && negb (PyStr.all_eq "-" line).

(** Lines 53-61: [lines = []], and for every line of the file
    [line = line.strip()], the tests, [lines.append(line)]. *)
Fixpoint read_lines (wait : Z) (tmp : list string) : list string :=
  match tmp with
  | [] => []
  | line :: tmp' =>
      let line := PyStr.strip line in
      if keep_line wait line then line :: read_lines wait tmp'
      else read_lines wait tmp'
  end.

(** Lines 67-69: the test on one subsystem,
    [task_path.startswith(os.path.join(own_path, "benchmark_"))]. *)
Definition in_expected_subcgroup (own_path task_path : string) : bool :=
  PyStr.startswith task_path (PyStr.path_join own_path "benchmark_").

(** [runexecutor.execute_run(args, output_filename, memlimit=..., cores=...,
    memory_nodes=...)]; its value is what the output file holds afterwards. *)
Definition execute_run (env : Platform) (spec : ProbeSpec) : M (list string) :=
  emit (EvExecuteRun spec);; call (probe_executor env spec).

(** Lines 66-78, the body of the loop over the subsystems; [fail] is the
    local flag. *)
Definition check_subsystem (my_cgroups task_cgroups : Cgroup)
    (subsystem : Subsystem) (fail : bool) : M bool :=
  if contains my_cgroups subsystem then
    task_path ← getitem task_cgroups subsystem;
    own_path ← getitem my_cgroups subsystem;
    if negb (in_expected_subcgroup own_path task_path) then
      actual ← getitem task_cgroups subsystem;
      own ← getitem my_cgroups subsystem;
      logging_warning actual subsystem own;;
      mret true
    else mret fail
  else mret fail.

(** [check_cgroup_availability(wait)].  The configuration of the logger and
    the construction of the run executor, whose [cgroups] the platform
    gives, perform no event; the temporary file is the list of lines that
    the executor leaves in it. *)
Definition check_cgroup_availability (env : Platform) (wait : Z) : M unit :=
  let my_cgroups := runexecutor_cgroups env in
  (if negb (contains my_cgroups CPUACCT
            && contains my_cgroups CPUSET
            && contains my_cgroups MEMORY)
   then sys_exit 1 else mret tt);;
  cpus ← call (get_value env my_cgroups CPUSET "cpus");
  cores ← call (parse_int_list env cpus);
  memory_nodes ← call (read_allowed_memory_banks env my_cgroups);
  tmp ← execute_run env
          (mkProbeSpec ["sh"; "-c"; probe_command wait] (tmp_name env)
                       (1024 * 1024) cores memory_nodes);
  let lines := read_lines wait tmp in
  task_cgroups ← call (find_my_cgroups env lines false);
  fail ← for_each [CPUACCT; CPUSET; MEMORY; FREEZER]
                  (check_subsystem my_cgroups task_cgroups) false;
  if fail : bool then sys_exit 1 else mret tt.

(** ** The thread wrapper *)

(** [class _CheckCgroupsThread(threading.Thread)]: the attribute [error] is
    [None] in the class, [options] is set by [__init__]. *)
Record _CheckCgroupsThread : Type := mkThread {
  options : Namespace;
  error : option BaseException
}.

(** [_CheckCgroupsThread.run]; its value is the thread object afterwards. *)
Definition run (env : Platform) (self : _CheckCgroupsThread) : M _CheckCgroupsThread :=
  try_except
    (check_cgroup_availability env (wait (options self));; mret self)
    (fun e => mret (mkThread (options self) (Some e))).

(** [thread.start(); thread.join()]: the worker executes [run] to its end,
    every event of it happens on the worker thread, and [join] returns once
    the worker is done.  An exception that escapes [run] is reported by the
    threading module and is not handed to the joining thread. *)
Definition start_join (env : Platform) (thread : _CheckCgroupsThread) :
    M _CheckCgroupsThread :=
  emit EvThreadStart;;
  thread' ← (let '(t, o) := run env thread in
             (EvInThread <$> t,
              match o with Returned th => Returned th | Raised _ => Returned thread end));
  emit EvThreadJoin;;
  mret thread'.

(** The truth value of [thread.error]: [None] is false, and an exception
    object is true, the exception classes defining neither [__bool__] nor
    [__len__]. *)
Definition error_truthy (error : option BaseException) : bool :=
  match error with Some _ => true | None => false end.

(** [raise thread.error] *)
Definition raise_error {A} (error : option BaseException) : M A :=
  match error with
  | Some e => raise e
  | None => raise (OtherException "TypeError" "exceptions must derive from BaseException")
  end.

Definition check_cgroup_availability_in_thread (env : Platform)
    (options : Namespace) : M unit :=
  let thread := mkThread options None in
  thread ← start_join env thread;
  if error_truthy (error thread) then raise_error (error thread)
  else mret tt.

(** ** The command line *)

(** [argparse] is modelled on the command lines made of the option strings
    of this parser written in full: [--no-thread], [--wait VALUE] and
    [--wait=VALUE].  Every other command line (abbreviated options, [-h],
    positional arguments, the separator [--], also as a value, a file of
    arguments after [@]) is left to [argparse_other], a parameter of the
    model. *)
Module Argparse.

Fixpoint all_digits (s : string) : bool :=
  match s with
  | EmptyString => true
  | String c s' => bool_decide (is_Some (PyStr.digit_value c)) && all_digits s'
  end.

(** A string that the parser takes as the argument of the option before it:
    it does not start with a prefix character ([-], or [@] for a file of
    arguments), or it looks like a negative number ([-] and digits), which
    this parser, having no option that looks like a number, reads as an
    argument. *)
Definition argument_like (s : string) : bool :=
  match s with
  | EmptyString => true
  | String "@" _ => false
  | String "-" r => PyStr.truthy r && all_digits r
  | String _ _ => true
  end.

(** One use of an option on a modelled command line. *)
Inductive OptionUse : Type :=
| UseNoThread
| UseWait (value : string).

Fixpoint option_uses (args : list string) : option (list OptionUse) :=
  match args with
  | [] => Some []
  | a :: rest =>
      if String.eqb a "--no-thread" then cons UseNoThread <$> option_uses rest
      else if String.eqb a "--wait" then
        match rest with
        | v :: rest' =>
            if argument_like v then cons (UseWait v) <$> option_uses rest'
            else None
        | [] => None
        end
      else if PyStr.startswith a "--wait=" then
        let v := String.substring 7 (String.length a - 7) a in
        if String.eqb v "--" then None
        else cons (UseWait v) <$> option_uses rest
      else None
  end.

(** The actions of the parser, taken in order: [--no-thread] is
    [store_true]; [--wait] stores [int(value)], and a value that [int]
    rejects ends the program through [parser.error], with exit status 2. *)
Fixpoint take_actions (uses : list OptionUse) (namespace : Namespace) : Outcome Namespace :=
  match uses with
  | [] => Returned namespace
  | UseNoThread :: uses' => take_actions uses' (mkNamespace (wait namespace) true)
  | UseWait value :: uses' =>
      match PyStr.int_of_str value with
      | Some n => take_actions uses' (mkNamespace n (no_thread namespace))
      | None => Raised (SystemExit 2)
      end
  end.

End Argparse.

(** [parser.parse_args(args)] for the parser built in [main]: [--wait] with
    [type=int, default=1], [--no-thread] with [action="store_true"]. *)
Definition parse_args (env : Platform) (args : list string) : Outcome Namespace :=
  match Argparse.option_uses args with
  | Some uses => Argparse.take_actions uses (mkNamespace 1 false)
  | None => argparse_other env args
  end.

Definition main (env : Platform) (argv : option (list string)) : M unit :=
  let argv := match argv with None => sys_argv env | Some a => a end in
  options ← call (parse_args env (drop 1 argv));
  if no_thread options then check_cgroup_availability env (wait options)
  else check_cgroup_availability_in_thread env options.

(** ** Reading a run *)

(** The event of the check behind an event of a run, whichever thread it
    happened on; the start and the join of a thread are no events of the
    check. *)
Fixpoint check_event (ev : Event) : option Event :=
  match ev with
  | EvInThread e => check_event e
  | EvThreadStart | EvThreadJoin => None
  | EvExecuteRun _ | EvWarning _ _ _ => Some ev
  end.

Definition deviation_of (ev : Event) : option Subsystem :=
  match check_event ev with Some (EvWarning _ s _) => Some s | _ => None end.

Definition executor_call_of (ev : Event) : option ProbeSpec :=
  match check_event ev with Some (EvExecuteRun spec) => Some spec | _ => None end.

(** The subsystems for which a run logged a deviation, in order. *)
Definition deviations (t : list Event) : list Subsystem := omap deviation_of t.

(** The executor calls of a run, in order. *)
Definition executor_calls (t : list Event) : list ProbeSpec := omap executor_call_of t.

(** The number of worker threads that a run started. *)
Definition thread_starts (t : list Event) : nat :=
  length (List.filter (fun ev => match ev with EvThreadStart => true | _ => false end) t).

(** The three subsystems that the check requires are in the snapshot. *)
Definition required_present (cgroups : Cgroup) : bool :=
  contains cgroups CPUACCT && contains cgroups CPUSET && contains cgroups MEMORY.

(** A subsystem is misplaced: it is in the caller's snapshot, the placement
    result has a path for it, and that path does not start with the caller's
    path joined with [benchmark_]. *)
Definition misplaced (my_cgroups task_cgroups : Cgroup) (s : Subsystem) : bool :=
  match my_cgroups !! s, task_cgroups !! s with
  | Some own, Some actual => negb (in_expected_subcgroup own actual)
  | _, _ => false
  end.

(** The warning logged for a misplaced subsystem. *)
Definition warning_for (my_cgroups task_cgroups : Cgroup) (s : Subsystem) : Event :=
  EvWarning (default "" (task_cgroups !! s)) s (default "" (my_cgroups !! s)).

(** The placement result has a path for every subsystem of the caller's
    snapshot. *)
Definition covers (task_cgroups my_cgroups : Cgroup) : Prop :=
  forall s, contains my_cgroups s = true -> is_Some (task_cgroups !! s).

(** The probe stage (lines 44-62) goes through: the calls it makes return,
    the executor is called with [spec], and the placement extractor returns
    [task_cgroups] for the lines read back. *)
Inductive probe_stage (env : Platform) (wait : Z) : ProbeSpec -> Cgroup -> Prop :=
| probe_stage_intro cpus cores memory_nodes tmp task_cgroups :
    get_value env (runexecutor_cgroups env) CPUSET "cpus" = Returned cpus ->
    parse_int_list env cpus = Returned cores ->
    read_allowed_memory_banks env (runexecutor_cgroups env) = Returned memory_nodes ->
    probe_executor env
      (mkProbeSpec ["sh"; "-c"; probe_command wait] (tmp_name env) 1048576
                   cores memory_nodes)
      = Returned tmp ->
    find_my_cgroups env (read_lines wait tmp) false = Returned task_cgroups ->
    probe_stage env wait
      (mkProbeSpec ["sh"; "-c"; probe_command wait] (tmp_name env) 1048576
                   cores memory_nodes)
      task_cgroups.

(** How the check ends after the comparison loop (lines 79-80). *)
Definition after_loop (loop : Outcome bool) : Outcome unit :=
  match loop with
  | Returned true => Raised (SystemExit 1)
  | Returned false => Returned tt
  | Raised e => Raised e
  end.

(** The four ways in which the loop body ends for a subsystem: the
    subsystem is not in the own snapshot; its placement path starts with
    the expected prefix; it does not, and a warning is logged; the placement
    result has no path for it. *)
Inductive body_case (my task : Cgroup) (s : Subsystem) (fail : bool) : M bool -> Prop :=
| body_skips :
    my !! s = None ->
    body_case my task s fail (mret fail)
| body_passes own actual :
    my !! s = Some own -> task !! s = Some actual ->
    in_expected_subcgroup own actual = true ->
    body_case my task s fail (mret fail)
| body_warns own actual :
    my !! s = Some own -> task !! s = Some actual ->
    in_expected_subcgroup own actual = false ->
    body_case my task s fail ([EvWarning actual s own], Returned true)
| body_raises :
    contains my s = true -> task !! s = None ->
    body_case my task s fail (raise (KeyError s)).

(** ** Three statements about the outcome of the check, as predicates of a run *)

(** A deviation is recorded for exactly the misplaced subsystems, and the
    check returns exactly when no deviation is recorded. *)
Definition deviations_as_claimed (my task : Cgroup) (r : M unit) : Prop :=
  (forall s,
     s ∈ deviations (trace r) <->
     exists own actual,
       my !! s = Some own /\ task !! s = Some actual
       /\ PyStr.startswith actual (PyStr.path_join own "benchmark_") = false)
  /\ (outcome r = Returned tt <-> deviations (trace r) = []).

(** If some subsystem is misplaced, the four subsystems are all compared:
    the deviations are the misplaced ones among the four, in the order of
    the loop, and the run ends with exit status 1. *)
Definition full_comparison_as_claimed (my task : Cgroup) (r : M unit) : Prop :=
  (exists s, misplaced my task s = true) ->
  deviations (trace r) =
    List.filter (misplaced my task) [CPUACCT; CPUSET; MEMORY; FREEZER]
  /\ (forall s, s ∈ deviations (trace r) <-> misplaced my task s = true)
  /\ outcome r = Raised (SystemExit 1).

(** A subsystem without a path in the placement result does not make the
    check raise: the run returns or ends with the exit of the check itself,
    a required subsystem without a path is among the deviations and the
    freezer subsystem without a path is not. *)
Definition missing_path_as_claimed (task : Cgroup) (r : M unit) : Prop :=
  forall s, task !! s = None ->
  (outcome r = Returned tt \/ outcome r = Raised (SystemExit 1))
  /\ (s <> FREEZER -> s ∈ deviations (trace r))
  /\ (s = FREEZER -> s ∉ deviations (trace r)).

(** ** The course of the check, for every platform *)

(** The first subsystem of [xs] that is in the own snapshot and has no path
    in the placement result, and the subsystems of [xs] before it (all of
    [xs] when there is none): these are the ones that the loop visits to the
    end of its body. *)
Fixpoint first_missing (my task : Cgroup) (xs : list Subsystem) : option Subsystem :=
  match xs with
  | [] => None
  | x :: xs' =>
      if contains my x && negb (contains task x) then Some x
      else first_missing my task xs'
  end.

Fixpoint visited (my task : Cgroup) (xs : list Subsystem) : list Subsystem :=
  match xs with
  | [] => []
  | x :: xs' =>
      if contains my x && negb (contains task x) then []
      else x :: visited my task xs'
  end.

(** The ways in which a check runs: it exits at lines 36-42; one of the
    calls that prepare the probe raises; the executor or the placement
    extractor raises; or the probe stage goes through and the comparison
    loop runs. *)
Inductive check_case (env : Platform) (wait : Z) : M unit -> Prop :=
| case_required_missing :
    required_present (runexecutor_cgroups env) = false ->
    check_case env wait ([], Raised (SystemExit 1))
| case_get_value_raises e :
    required_present (runexecutor_cgroups env) = true ->
    get_value env (runexecutor_cgroups env) CPUSET "cpus" = Raised e ->
    check_case env wait ([], Raised e)
| case_parse_int_list_raises cpus e :
    required_present (runexecutor_cgroups env) = true ->
    get_value env (runexecutor_cgroups env) CPUSET "cpus" = Returned cpus ->
    parse_int_list env cpus = Raised e ->
    check_case env wait ([], Raised e)
| case_memory_banks_raises cpus cores e :
    required_present (runexecutor_cgroups env) = true ->
    get_value env (runexecutor_cgroups env) CPUSET "cpus" = Returned cpus ->
    parse_int_list env cpus = Returned cores ->
    read_allowed_memory_banks env (runexecutor_cgroups env) = Raised e ->
    check_case env wait ([], Raised e)
| case_executor_raises cpus cores nodes e :
    required_present (runexecutor_cgroups env) = true ->
    get_value env (runexecutor_cgroups env) CPUSET "cpus" = Returned cpus ->
    parse_int_list env cpus = Returned cores ->
    read_allowed_memory_banks env (runexecutor_cgroups env) = Returned nodes ->
    probe_executor env
      (mkProbeSpec ["sh"; "-c"; probe_command wait] (tmp_name env) 1048576 cores nodes)
      = Raised e ->
    check_case env wait
      ([EvExecuteRun
          (mkProbeSpec ["sh"; "-c"; probe_command wait] (tmp_name env) 1048576
                       cores nodes)],
       Raised e)
| case_extractor_raises cpus cores nodes tmp e :
    required_present (runexecutor_cgroups env) = true ->
    get_value env (runexecutor_cgroups env) CPUSET "cpus" = Returned cpus ->
    parse_int_list env cpus = Returned cores ->
    read_allowed_memory_banks env (runexecutor_cgroups env) = Returned nodes ->
    probe_executor env
      (mkProbeSpec ["sh"; "-c"; probe_command wait] (tmp_name env) 1048576 cores nodes)
      = Returned tmp ->
    find_my_cgroups env (read_lines wait tmp) false = Raised e ->
    check_case env wait
      ([EvExecuteRun
          (mkProbeSpec ["sh"; "-c"; probe_command wait] (tmp_name env) 1048576
                       cores nodes)],
       Raised e)
| case_compares spec task :
    required_present (runexecutor_cgroups env) = true ->
    probe_stage env wait spec task ->
    check_case env wait
      (EvExecuteRun spec
         :: (warning_for (runexecutor_cgroups env) task
               <$> List.filter (misplaced (runexecutor_cgroups env) task)
                     (visited (runexecutor_cgroups env) task
                        [CPUACCT; CPUSET; MEMORY; FREEZER])),
       match first_missing (runexecutor_cgroups env) task
               [CPUACCT; CPUSET; MEMORY; FREEZER] with
       | Some k => Raised (KeyError k)
       | None =>
           if existsb (misplaced (runexecutor_cgroups env) task)
                [CPUACCT; CPUSET; MEMORY; FREEZER]
           then Raised (SystemExit 1) else Returned tt
       end).

(** The platform [env] with a placement extractor that answers [task]. *)
Definition with_placement (env : Platform) (task : Cgroup) : Platform :=
  mkPlatform (runexecutor_cgroups env) (get_value env) (read_allowed_memory_banks env)
    (parse_int_list env) (tmp_name env) (probe_executor env)
    (fun _ _ => Returned task) (sys_argv env) (argparse_other env).

(** One of the five calls of the probe stage raises [e], the calls before it
    having returned. *)
Inductive platform_raises (env : Platform) (wait : Z) (e : BaseException) : Prop :=
| get_value_raises :
    get_value env (runexecutor_cgroups env) CPUSET "cpus" = Raised e ->
    platform_raises env wait e
| parse_int_list_raises cpus :
    get_value env (runexecutor_cgroups env) CPUSET "cpus" = Returned cpus ->
    parse_int_list env cpus = Raised e ->
    platform_raises env wait e
| memory_banks_raises cpus cores :
    get_value env (runexecutor_cgroups env) CPUSET "cpus" = Returned cpus ->
    parse_int_list env cpus = Returned cores ->
    read_allowed_memory_banks env (runexecutor_cgroups env) = Raised e ->
    platform_raises env wait e
| executor_raises cpus cores nodes :
    get_value env (runexecutor_cgroups env) CPUSET "cpus" = Returned cpus ->
    parse_int_list env cpus = Returned cores ->
    read_allowed_memory_banks env (runexecutor_cgroups env) = Returned nodes ->
    probe_executor env
      (mkProbeSpec ["sh"; "-c"; probe_command wait] (tmp_name env) 1048576 cores nodes)
      = Raised e ->
    platform_raises env wait e
| extractor_raises cpus cores nodes tmp :
    get_value env (runexecutor_cgroups env) CPUSET "cpus" = Returned cpus ->
    parse_int_list env cpus = Returned cores ->
    read_allowed_memory_banks env (runexecutor_cgroups env) = Returned nodes ->
    probe_executor env
      (mkProbeSpec ["sh"; "-c"; probe_command wait] (tmp_name env) 1048576 cores nodes)
      = Returned tmp ->
    find_my_cgroups env (read_lines wait tmp) false = Raised e ->
    platform_raises env wait e.

(** An event is a warning of the log. *)
Definition is_warning (ev : Event) : Prop :=
  exists actual s own, ev = EvWarning actual s own.

(** The value of a decimal numeral read after the value [acc]. *)
Fixpoint uint_value (d : Decimal.uint) (acc : Z) : Z :=
  match d with
  | Decimal.Nil => acc
  | Decimal.D0 d => uint_value d (10 * acc + 0)
  | Decimal.D1 d => uint_value d (10 * acc + 1)
  | Decimal.D2 d => uint_value d (10 * acc + 2)
  | Decimal.D3 d => uint_value d (10 * acc + 3)
  | Decimal.D4 d => uint_value d (10 * acc + 4)
  | Decimal.D5 d => uint_value d (10 * acc + 5)
  | Decimal.D6 d => uint_value d (10 * acc + 6)
  | Decimal.D7 d => uint_value d (10 * acc + 7)
  | Decimal.D8 d => uint_value d (10 * acc + 8)
  | Decimal.D9 d => uint_value d (10 * acc + 9)
  end.

(** ** Sample inputs *)

Definition newline : string := String (ascii_of_nat 10) EmptyString.

(** The snapshot and the placement results of the scenarios of the
    specification. *)
Definition own_abc : Cgroup :=
  {[ CPUACCT := "/a"; CPUSET := "/b"; MEMORY := "/c" ]}.

Definition placed_in_benchmark : Cgroup :=
  {[ CPUACCT := "/a/benchmark_1/x"; CPUSET := "/b/benchmark_1/x";
     MEMORY := "/c/benchmark_1/x" ]}.

Definition placed_elsewhere : Cgroup :=
  {[ CPUACCT := "/other/1"; CPUSET := "/b/benchmark_1/x";
     MEMORY := "/c/benchmark_1/x" ]}.

(** A snapshot without the memory subsystem, and one with the freezer. *)
Definition own_without_memory : Cgroup := {[ CPUACCT := "/a"; CPUSET := "/b" ]}.

Definition own_with_freezer : Cgroup :=
  {[ CPUACCT := "/a"; CPUSET := "/b"; MEMORY := "/c"; FREEZER := "/f" ]}.

(** Placement results that lack the path of a subsystem. *)
Definition placed_without_cpuset : Cgroup :=
  {[ CPUACCT := "/other/1"; MEMORY := "/other/2" ]}.

Definition placed_without_cpuacct : Cgroup :=
  {[ CPUSET := "/b/benchmark_1/x"; MEMORY := "/c/benchmark_1/x" ]}.

(** A snapshot, and a placement whose last component merely begins with
    [benchmark_]. *)
Definition own_a : Cgroup := {[ CPUACCT := "/a" ]}.

Definition placed_anything : Cgroup := {[ CPUACCT := "/a/benchmark_anything" ]}.

(** What a probe leaves in its output file. *)
Definition sample_output : list string :=
  [ "sh -c 'sleep 1; cat /proc/self/cgroup'" +:+ newline;
    "----------" +:+ newline;
    newline;
    "  4:memory:/c/benchmark_1/x" +:+ newline ].

(** A platform with the own snapshot [my], on which every call returns and
    the placement extractor answers [task]. *)
Definition sample_platform (my task : Cgroup) : Platform :=
  mkPlatform my
    (fun _ _ _ => Returned "0-1")
    (fun _ => Returned [0])
    (fun _ => Returned [0; 1])
    "/tmp/tmpcheck"
    (fun _ => Returned sample_output)
    (fun _ _ => Returned task)
    ["check_cgroups.py"]
    (fun _ => Raised (SystemExit 2)).

(** The same platform, but the probe executor raises [e]. *)
Definition failing_platform (my : Cgroup) (e : BaseException) : Platform :=
  mkPlatform my
    (fun _ _ _ => Returned "0-1")
    (fun _ => Returned [0])
    (fun _ => Returned [0; 1])
    "/tmp/tmpcheck"
    (fun _ => Raised e)
    (fun _ _ => Returned ∅)
    ["check_cgroups.py"]
    (fun _ => Raised (SystemExit 2)).

(** The probe specification on the sample platforms for [wait = 1]. *)
Definition sample_spec : ProbeSpec :=
  mkProbeSpec ["sh"; "-c"; "sleep 1; cat /proc/self/cgroup"] "/tmp/tmpcheck"
              1048576 [0; 1] [0].

(** A placement result with a freezer path besides the three expected
    paths. *)
Definition placed_with_freezer : Cgroup :=
  {[ CPUACCT := "/a/benchmark_1/x"; CPUSET := "/b/benchmark_1/x";
     MEMORY := "/c/benchmark_1/x"; FREEZER := "/elsewhere" ]}.

(** The line of [sample_output] that the filter keeps. *)
Definition sample_kept_line : string := "4:memory:/c/benchmark_1/x".

(** ** Properties of the string operations *)

Lemma append_nil (r : string) : EmptyString +:+ r = r.
Proof. reflexivity. Qed.

Lemma append_cons (c : ascii) (p r : string) : String c p +:+ r = String c (p +:+ r).
Proof. reflexivity. Qed.

Lemma append_nil_r (p : string) : p +:+ EmptyString = p.
Proof.
  induction p as [|c p IH]; [reflexivity|].
  rewrite append_cons, IH. reflexivity.
Qed.

Lemma startswith_append (p r : string) : PyStr.startswith (p +:+ r) p = true.
Proof.
  induction p as [|c p IH]; [reflexivity|].
  rewrite append_cons. simpl. rewrite Ascii.eqb_refl. exact IH.
Qed.

Lemma startswith_inv (s p : string) :
  PyStr.startswith s p = true -> exists r, s = p +:+ r.
Proof.
  revert s. induction p as [|c p IH]; intros s H.
  - exists s. reflexivity.
  - destruct s as [|a s]; simpl in H; [discriminate|].
    destruct (Ascii.eqb a c) eqn:E; [|discriminate].
    apply Ascii.eqb_eq in E. subst a.
    destruct (IH s H) as [r ->]. exists r. reflexivity.
Qed.

(** [startswith] is the prefix relation on strings. *)
Lemma startswith_spec (s p : string) :
  PyStr.startswith s p = true <-> exists r, s = p +:+ r.
Proof.
  split; [apply startswith_inv|].
  intros [r ->]. apply startswith_append.
Qed.

Lemma lstrip_spec (s : string) :
  exists pre, s = pre +:+ PyStr.lstrip s /\ whitespace pre.
Proof.
  induction s as [|c s (pre & Hs & Hpre)].
  - exists EmptyString. split; [reflexivity | constructor].
  - simpl. destruct (PyStr.isspace c) eqn:Hc.
    + exists (String c pre). split.
      * rewrite append_cons, <- Hs. reflexivity.
      * constructor; assumption.
    + exists EmptyString. split; [reflexivity | constructor].
Qed.

Lemma rstrip_spec (s : string) :
  exists post, s = PyStr.rstrip s +:+ post /\ whitespace post.
Proof.
  induction s as [|c s (post & Hs & Hpost)].
  - exists EmptyString. split; [reflexivity | constructor].
  - simpl. destruct (PyStr.rstrip s) as [|a r] eqn:Hr.
    + rewrite append_nil in Hs. subst post.
      destruct (PyStr.isspace c) eqn:Hc.
      * exists (String c s). split; [reflexivity | constructor; assumption].
      * exists s. split; [reflexivity | assumption].
    + exists post. split; [|assumption].
      rewrite append_cons, <- Hs. reflexivity.
Qed.

Lemma lstrip_no_leading_space (s : string) (c : ascii) (r : string) :
  PyStr.lstrip s = String c r -> PyStr.isspace c = false.
Proof.
  induction s as [|a s IH]; simpl; [discriminate|].
  destruct (PyStr.isspace a) eqn:Ha; [exact IH|].
  intros [= <- _]. exact Ha.
Qed.

Lemma rstrip_no_trailing_space (s : string) (c : ascii) :
  PyStr.endswith_char (PyStr.rstrip s) c = true -> PyStr.isspace c = false.
Proof.
  induction s as [|a s IH]; simpl; [discriminate|].
  destruct (PyStr.rstrip s) as [|b r] eqn:Hr.
  - destruct (PyStr.isspace a) eqn:Ha; simpl; [discriminate|].
    intros H. apply Ascii.eqb_eq in H. subst a. exact Ha.
  - exact IH.
Qed.

Lemma rstrip_keeps_head (s : string) (c : ascii) (r : string) :
  PyStr.rstrip s = String c r -> exists s', s = String c s'.
Proof.
  destruct s as [|a s]; simpl; [discriminate|].
  destruct (PyStr.rstrip s); [destruct (PyStr.isspace a)|];
    intros [= <- _]; eauto.
Qed.

(** [strip] removes whitespace, and only whitespace, from both ends: the
    line is the stripped line between two strings of whitespace, and the
    stripped line neither starts nor ends with a whitespace character. *)
Lemma strip_spec (s : string) :
  (exists pre post, s = pre +:+ PyStr.strip s +:+ post /\ whitespace pre /\ whitespace post)
  /\ (forall c r, PyStr.strip s = String c r -> PyStr.isspace c = false)
  /\ (forall c, PyStr.endswith_char (PyStr.strip s) c = true -> PyStr.isspace c = false).
Proof.
  unfold PyStr.strip. split; [|split].
  - destruct (lstrip_spec s) as (pre & Hpre & Wpre).
    destruct (rstrip_spec (PyStr.lstrip s)) as (post & Hpost & Wpost).
    exists pre, post. rewrite <- Hpost. auto.
  - intros c r H. destruct (rstrip_keeps_head _ _ _ H) as [s' Hs'].
    exact (lstrip_no_leading_space _ _ _ Hs').
  - apply rstrip_no_trailing_space.
Qed.

Lemma all_eq_spec (ch : ascii) (s : string) :
  PyStr.all_eq ch s = true <-> Forall (fun c => c = ch) (list_ascii_of_string s).
Proof.
  induction s as [|c s IH]; simpl.
  - split; [constructor | reflexivity].
  - rewrite andb_true_iff, Ascii.eqb_eq, IH. split.
    + intros [-> H]. constructor; [reflexivity | exact H].
    + intros H. inversion H; subst. split; [reflexivity | assumption].
Qed.

Lemma truthy_false (s : string) : PyStr.truthy s = false <-> s = EmptyString.
Proof. destruct s; simpl; split; congruence. Qed.

(** The text that [str_of_int] gives is a decimal numeral of the integer. *)
Lemma str_of_int_denotes (n : Z) :
  Z.of_int <$> NilZero.int_of_string (PyStr.str_of_int n) = Some n.
Proof.
  unfold PyStr.str_of_int. rewrite NilZero.isi.
  - cbn. f_equal. apply DecimalZ.of_to.
  - destruct n; cbn; try discriminate.
    intros [= H]. exact (Unsigned.to_uint_nonnil _ H).
  - destruct n; cbn; try discriminate.
    intros [= H]. exact (Unsigned.to_uint_nonnil _ H).
Qed.

Lemma path_join_benchmark (own : string) :
  PyStr.path_join own "benchmark_" =
    if negb (PyStr.truthy own) || PyStr.endswith_char own "/"
    then own +:+ "benchmark_" else own +:+ "/benchmark_".
Proof. reflexivity. Qed.

(** ** Properties of computations *)

Lemma bind_returned {A B} (t : list Event) (a : A) (k : A -> M B) :
  ((t, Returned a) ≫= k) = (t ++ trace (k a), outcome (k a)).
Proof. unfold mbind, M_bind, trace, outcome. destruct (k a); reflexivity. Qed.

Lemma bind_raised {A B} (t : list Event) (e : BaseException) (k : A -> M B) :
  ((t, Raised e) ≫= k) = (t, Raised e).
Proof. reflexivity. Qed.

Lemma bind_mret {A B} (a : A) (k : A -> M B) : (mret a ≫= k) = k a.
Proof. unfold mret, M_ret. rewrite bind_returned. destruct (k a); reflexivity. Qed.

Lemma bind_call_returned {A B} (a : A) (k : A -> M B) :
  (call (Returned a) ≫= k) = k a.
Proof. apply bind_mret. Qed.

Lemma bind_call_raised {A B} (e : BaseException) (k : A -> M B) :
  (call (Raised e) ≫= k) = raise e.
Proof. reflexivity. Qed.

Lemma bind_emit {B} (ev : Event) (k : unit -> M B) :
  (emit ev ≫= k) = (ev :: trace (k tt), outcome (k tt)).
Proof. unfold emit. rewrite bind_returned. reflexivity. Qed.

Lemma trace_call {A} (o : Outcome A) : trace (call o) = [].
Proof. reflexivity. Qed.

Lemma outcome_call {A} (o : Outcome A) : outcome (call o) = o.
Proof. reflexivity. Qed.

Lemma trace_bind {A B} (m : M A) (k : A -> M B) :
  trace (m ≫= k) =
    match outcome m with
    | Returned a => trace m ++ trace (k a)
    | Raised _ => trace m
    end.
Proof.
  destruct m as [t [a|e]]; [|reflexivity].
  rewrite bind_returned. reflexivity.
Qed.

Lemma outcome_bind {A B} (m : M A) (k : A -> M B) :
  outcome (m ≫= k) =
    match outcome m with
    | Returned a => outcome (k a)
    | Raised e => Raised e
    end.
Proof.
  destruct m as [t [a|e]]; [|reflexivity].
  rewrite bind_returned. reflexivity.
Qed.

Create Rewrite HintDb run.
#[local] Hint Rewrite @bind_mret @bind_call_returned @bind_emit @trace_call
  @outcome_call : run.

(** One step of a run whose next call is known to return. *)
Ltac run_step H := rewrite H; autorewrite with run.

(** ** Properties of the readings of a run *)

Lemma executor_calls_run (spec : ProbeSpec) (t : list Event) :
  executor_calls (EvExecuteRun spec :: t) = spec :: executor_calls t.
Proof. reflexivity. Qed.

Lemma executor_calls_warning (actual own : string) (s : Subsystem) (t : list Event) :
  executor_calls (EvWarning actual s own :: t) = executor_calls t.
Proof. reflexivity. Qed.

Lemma executor_calls_app (t1 t2 : list Event) :
  executor_calls (t1 ++ t2) = executor_calls t1 ++ executor_calls t2.
Proof. apply omap_app. Qed.

Lemma executor_calls_bind {A B} (m : M A) (k : A -> M B) :
  executor_calls (trace (m ≫= k)) =
    executor_calls (trace m) ++
    match outcome m with
    | Returned a => executor_calls (trace (k a))
    | Raised _ => []
    end.
Proof.
  rewrite trace_bind.
  destruct (outcome m); [apply executor_calls_app | rewrite app_nil_r; reflexivity].
Qed.

Lemma deviations_run (spec : ProbeSpec) (t : list Event) :
  deviations (EvExecuteRun spec :: t) = deviations t.
Proof. reflexivity. Qed.

Lemma deviations_warning (actual own : string) (s : Subsystem) (t : list Event) :
  deviations (EvWarning actual s own :: t) = s :: deviations t.
Proof. reflexivity. Qed.

Lemma deviations_app (t1 t2 : list Event) :
  deviations (t1 ++ t2) = deviations t1 ++ deviations t2.
Proof. apply omap_app. Qed.

Lemma deviations_warnings (my task : Cgroup) (xs : list Subsystem) :
  deviations (warning_for my task <$> xs) = xs.
Proof.
  induction xs as [|x xs IH]; [reflexivity|].
  rewrite fmap_cons. unfold warning_for at 1.
  rewrite deviations_warning, IH. reflexivity.
Qed.

(** The events of a worker thread are read like those of the calling
    thread. *)
Lemma deviations_in_thread (t : list Event) :
  deviations (EvInThread <$> t) = deviations t.
Proof.
  induction t as [|ev t IH]; [reflexivity|].
  rewrite fmap_cons. unfold deviations in *. cbn [omap list_omap].
  change (deviation_of (EvInThread ev)) with (deviation_of ev).
  rewrite IH. reflexivity.
Qed.

Lemma executor_calls_in_thread (t : list Event) :
  executor_calls (EvInThread <$> t) = executor_calls t.
Proof.
  induction t as [|ev t IH]; [reflexivity|].
  rewrite fmap_cons. unfold executor_calls in *. cbn [omap list_omap].
  change (executor_call_of (EvInThread ev)) with (executor_call_of ev).
  rewrite IH. reflexivity.
Qed.

Lemma thread_starts_in_thread (t : list Event) :
  thread_starts (EvInThread <$> t) = 0%nat.
Proof. induction t as [|ev t IH]; [reflexivity | exact IH]. Qed.

Lemma thread_starts_app (t1 t2 : list Event) :
  thread_starts (t1 ++ t2) = (thread_starts t1 + thread_starts t2)%nat.
Proof. unfold thread_starts. rewrite List.filter_app, length_app. reflexivity. Qed.

Lemma contains_spec (cgroups : Cgroup) (s : Subsystem) :
  contains cgroups s = true <-> is_Some (cgroups !! s).
Proof. unfold contains. rewrite bool_decide_eq_true. reflexivity. Qed.

Lemma contains_false (cgroups : Cgroup) (s : Subsystem) :
  contains cgroups s = false <-> cgroups !! s = None.
Proof.
  unfold contains. rewrite bool_decide_eq_false, <- eq_None_not_Some. reflexivity.
Qed.

Lemma required_present_spec (cgroups : Cgroup) :
  required_present cgroups = false <->
  cgroups !! CPUACCT = None \/ cgroups !! CPUSET = None \/ cgroups !! MEMORY = None.
Proof.
  unfold required_present. rewrite !andb_false_iff, !contains_false. tauto.
Qed.

Lemma all_subsystems (s : Subsystem) : s ∈ [CPUACCT; CPUSET; MEMORY; FREEZER].
Proof. destruct s; repeat constructor. Qed.

Lemma filter_nil_existsb {A} (f : A -> bool) (xs : list A) :
  List.filter f xs = [] <-> existsb f xs = false.
Proof.
  induction xs as [|x xs IH]; [split; reflexivity|].
  cbn. destruct (f x); cbn; [split; discriminate | exact IH].
Qed.

(** ** The comparison loop (lines 64-78) *)

Section Loop.

Variables my task : Cgroup.

Lemma check_subsystem_skipped (s : Subsystem) (fail : bool) :
  my !! s = None -> check_subsystem my task s fail = mret fail.
Proof.
  intros H. unfold check_subsystem.
  apply contains_false in H. rewrite H. reflexivity.
Qed.

Lemma check_subsystem_found (s : Subsystem) (fail : bool) (own actual : string) :
  my !! s = Some own -> task !! s = Some actual ->
  check_subsystem my task s fail =
    if in_expected_subcgroup own actual then ([], Returned fail)
    else ([EvWarning actual s own], Returned true).
Proof.
  intros Hmy Htask. unfold check_subsystem, getitem.
  assert (contains my s = true) as -> by (apply contains_spec; eauto).
  rewrite Hmy, Htask, !bind_mret.
  destruct (in_expected_subcgroup own actual); reflexivity.
Qed.

Lemma check_subsystem_missing (s : Subsystem) (fail : bool) :
  contains my s = true -> task !! s = None ->
  check_subsystem my task s fail = raise (KeyError s).
Proof.
  intros Hmy Htask. unfold check_subsystem, getitem.
  rewrite Hmy, Htask. reflexivity.
Qed.

Lemma misplaced_found (s : Subsystem) (own actual : string) :
  my !! s = Some own -> task !! s = Some actual ->
  misplaced my task s = negb (in_expected_subcgroup own actual).
Proof. intros Hmy Htask. unfold misplaced. rewrite Hmy, Htask. reflexivity. Qed.

Lemma misplaced_skipped (s : Subsystem) :
  my !! s = None -> misplaced my task s = false.
Proof. intros Hmy. unfold misplaced. rewrite Hmy. reflexivity. Qed.

Lemma misplaced_missing (s : Subsystem) :
  task !! s = None -> misplaced my task s = false.
Proof. intros Htask. unfold misplaced. rewrite Htask. destruct (my !! s); reflexivity. Qed.

Lemma misplaced_spec (s : Subsystem) :
  misplaced my task s = true <->
  exists own actual,
    my !! s = Some own /\ task !! s = Some actual
    /\ PyStr.startswith actual (PyStr.path_join own "benchmark_") = false.
Proof.
  unfold misplaced, in_expected_subcgroup. split.
  - destruct (my !! s) as [own|]; [|discriminate].
    destruct (task !! s) as [actual|]; [|discriminate].
    intros H. apply negb_true_iff in H. eauto.
  - intros (own & actual & -> & -> & H). rewrite H. reflexivity.
Qed.

Lemma warning_for_found (s : Subsystem) (own actual : string) :
  my !! s = Some own -> task !! s = Some actual ->
  warning_for my task s = EvWarning actual s own.
Proof. intros Hmy Htask. unfold warning_for. rewrite Hmy, Htask. reflexivity. Qed.

Lemma check_subsystem_cases (s : Subsystem) (fail : bool) :
  body_case my task s fail (check_subsystem my task s fail).
Proof.
  destruct (my !! s) as [own|] eqn:Hmy.
  - destruct (task !! s) as [actual|] eqn:Htask.
    + rewrite (check_subsystem_found _ _ _ _ Hmy Htask).
      destruct (in_expected_subcgroup own actual) eqn:Hexp.
      * apply (body_passes _ _ _ _ own actual); assumption.
      * apply body_warns; assumption.
    + assert (contains my s = true) as Hc by (apply contains_spec; eauto).
      rewrite (check_subsystem_missing _ _ Hc Htask). apply body_raises; assumption.
  - rewrite (check_subsystem_skipped _ _ Hmy). apply body_skips, Hmy.
Qed.

(** When the placement result has a path for every subsystem of the own
    snapshot that the loop visits, the loop runs to its end: it logs one
    warning per misplaced subsystem, in order, and the flag records whether
    there was one. *)
Lemma comparison_loop (xs : list Subsystem) (fail : bool) :
  (forall s, s ∈ xs -> contains my s = true -> is_Some (task !! s)) ->
  for_each xs (check_subsystem my task) fail =
    (warning_for my task <$> List.filter (misplaced my task) xs,
     Returned (fail || existsb (misplaced my task) xs)).
Proof.
  revert fail. induction xs as [|s xs IH]; intros fail Hcov.
  - simpl. rewrite orb_false_r. reflexivity.
  - assert (forall s', s' ∈ xs -> contains my s' = true -> is_Some (task !! s')) as Hxs
      by (intros s' Hin; apply Hcov; right; exact Hin).
    cbn [for_each List.filter existsb].
    destruct (check_subsystem_cases s fail)
      as [Hmy|own actual Hmy Htask Hexp|own actual Hmy Htask Hexp|Hc Hmiss].
    + rewrite bind_mret, IH, (misplaced_skipped _ Hmy) by exact Hxs. reflexivity.
    + rewrite bind_mret, IH, (misplaced_found _ _ _ Hmy Htask), Hexp by exact Hxs.
      reflexivity.
    + rewrite bind_returned, IH, (misplaced_found _ _ _ Hmy Htask), Hexp by exact Hxs.
      cbn [negb]. rewrite fmap_cons, (warning_for_found _ _ _ Hmy Htask), orb_true_r.
      reflexivity.
    + destruct (Hcov s) as [actual Htask]; [left | exact Hc | congruence].
Qed.

(** When the loop reaches a subsystem of the own snapshot for which the
    placement result has no path, it ends there with [KeyError], after the
    warnings of the subsystems before it. *)
Lemma comparison_loop_missing (pre post : list Subsystem) (k : Subsystem) (fail : bool) :
  (forall s, s ∈ pre -> contains my s = true -> is_Some (task !! s)) ->
  contains my k = true -> task !! k = None ->
  for_each (pre ++ k :: post) (check_subsystem my task) fail =
    (warning_for my task <$> List.filter (misplaced my task) pre,
     Raised (KeyError k)).
Proof.
  intros Hcov Hk Hmiss. revert fail. induction pre as [|s pre IH]; intros fail.
  - cbn [app for_each]. rewrite check_subsystem_missing by assumption. reflexivity.
  - assert (forall s', s' ∈ pre -> contains my s' = true -> is_Some (task !! s')) as Hpre
      by (intros s' Hin; apply Hcov; right; exact Hin).
    specialize (IH Hpre).
    change ((s :: pre) ++ k :: post) with (s :: (pre ++ k :: post)).
    cbn [for_each List.filter].
    destruct (check_subsystem_cases s fail)
      as [Hmy|own actual Hmy Htask Hexp|own actual Hmy Htask Hexp|Hc Hs].
    + rewrite bind_mret, IH, (misplaced_skipped _ Hmy). reflexivity.
    + rewrite bind_mret, IH, (misplaced_found _ _ _ Hmy Htask), Hexp. reflexivity.
    + rewrite bind_returned, IH, (misplaced_found _ _ _ Hmy Htask), Hexp.
      cbn [negb]. rewrite fmap_cons, (warning_for_found _ _ _ Hmy Htask). reflexivity.
    + destruct (Hcov s) as [actual Htask]; [left | exact Hc | congruence].
Qed.

(** Whatever the placement result, the loop never calls the executor, it
    logs a deviation only for a misplaced subsystem, and the only exception
    it raises is the [KeyError] of a subsystem of the own snapshot that has
    no path. *)
Lemma loop_executor_calls (xs : list Subsystem) (fail : bool) :
  executor_calls (trace (for_each xs (check_subsystem my task) fail)) = [].
Proof.
  revert fail. induction xs as [|s xs IH]; intros fail; [reflexivity|].
  cbn [for_each]. rewrite executor_calls_bind.
  destruct (check_subsystem_cases s fail); cbn [outcome trace fst snd mret M_ret raise app].
  - apply IH.
  - apply IH.
  - rewrite executor_calls_warning. apply IH.
  - reflexivity.
Qed.

Lemma loop_deviations_misplaced (xs : list Subsystem) (fail : bool) (s : Subsystem) :
  s ∈ deviations (trace (for_each xs (check_subsystem my task) fail)) ->
  misplaced my task s = true.
Proof.
  revert fail. induction xs as [|x xs IH]; intros fail; [intros H; inversion H|].
  cbn [for_each]. rewrite trace_bind.
  destruct (check_subsystem_cases x fail)
    as [Hmy|own actual Hmy Htask Hexp|own actual Hmy Htask Hexp|Hc Hx];
    cbn [outcome trace fst snd mret M_ret raise app].
  - apply IH.
  - apply IH.
  - rewrite deviations_warning. intros H.
    apply elem_of_cons in H as [->|H]; [|exact (IH _ H)].
    rewrite (misplaced_found _ _ _ Hmy Htask), Hexp. reflexivity.
  - intros H. inversion H.
Qed.

Lemma loop_outcome_cases (xs : list Subsystem) (fail : bool) :
  (exists b, outcome (for_each xs (check_subsystem my task) fail) = Returned b)
  \/ (exists k, contains my k = true /\ task !! k = None
        /\ outcome (for_each xs (check_subsystem my task) fail) = Raised (KeyError k)).
Proof.
  revert fail. induction xs as [|x xs IH]; intros fail; [left; eexists; reflexivity|].
  cbn [for_each]. rewrite outcome_bind.
  destruct (check_subsystem_cases x fail)
    as [Hmy|own actual Hmy Htask Hexp|own actual Hmy Htask Hexp|Hc Hx];
    cbn [outcome snd mret M_ret raise]; try apply IH.
  right. exists x. auto.
Qed.

Lemma loop_missing_raises (xs : list Subsystem) (fail : bool) :
  (exists s, s ∈ xs /\ contains my s = true /\ task !! s = None) ->
  exists k, contains my k = true /\ task !! k = None
    /\ outcome (for_each xs (check_subsystem my task) fail) = Raised (KeyError k).
Proof.
  revert fail. induction xs as [|x xs IH]; intros fail (s & Hin & Hc & Hmiss).
  - inversion Hin.
  - cbn [for_each]. rewrite outcome_bind.
    assert (s = x \/ s ∈ xs) as Hs by (apply elem_of_cons; exact Hin).
    apply contains_spec in Hc as Hown. destruct Hown as [own' Hown].
    destruct (check_subsystem_cases x fail)
      as [Hmy|own actual Hmy Htask Hexp|own actual Hmy Htask Hexp|Hcx Hx];
      cbn [outcome snd mret M_ret raise].
    + apply IH. exists s. destruct Hs as [->|Hs]; [congruence | auto].
    + apply IH. exists s. destruct Hs as [->|Hs]; [congruence | auto].
    + apply IH. exists s. destruct Hs as [->|Hs]; [congruence | auto].
    + exists x. auto.
Qed.

End Loop.

(** ** The placement test (lines 67-69) *)

Lemma in_expected_subcgroup_spec (own actual : string) :
  in_expected_subcgroup own actual = true <->
  exists rest, actual = PyStr.path_join own "benchmark_" +:+ rest.
Proof. apply startswith_spec. Qed.

Lemma check_subsystem_passes (my task : Cgroup) (s : Subsystem) (fail : bool)
    (own actual : string) :
  my !! s = Some own -> task !! s = Some actual ->
  check_subsystem my task s fail = mret fail <->
  in_expected_subcgroup own actual = true.
Proof.
  intros Hmy Htask. rewrite (check_subsystem_found _ _ _ _ _ _ Hmy Htask).
  destruct (in_expected_subcgroup own actual); split; intros H;
    try reflexivity; discriminate H.
Qed.

(** C9. The placement comparison is a plain string-prefix test: for an own
    path P and an actual path A, the subsystem passes (the loop body logs
    nothing and leaves the flag as it is) exactly when A begins with the
    characters of P joined with benchmark_; A equal to that prefix passes,
    and so does every A that extends it by any characters, a path separator
    or not.  The joined prefix is P followed by benchmark_ when P is empty
    or ends with a slash, and P followed by /benchmark_ otherwise, in which
    case P followed by /benchmark_anything passes. *)
Theorem placement_test_is_prefix_test (my task : Cgroup) (s : Subsystem)
    (fail : bool) (P A : string) :
  my !! s = Some P ->
  task !! s = Some A ->
  (check_subsystem my task s fail = mret fail <->
     exists rest, A = PyStr.path_join P "benchmark_" +:+ rest)
  /\ (A = PyStr.path_join P "benchmark_" ->
      check_subsystem my task s fail = mret fail)
  /\ (forall rest, A = PyStr.path_join P "benchmark_" +:+ rest ->
      check_subsystem my task s fail = mret fail)
  /\ PyStr.path_join P "benchmark_" =
       (if negb (PyStr.truthy P) || PyStr.endswith_char P "/"
        then P +:+ "benchmark_" else P +:+ "/benchmark_")
  /\ (PyStr.truthy P = true -> PyStr.endswith_char P "/" = false ->
      A = P +:+ "/benchmark_anything" ->
      check_subsystem my task s fail = mret fail).
Proof.
  intros Hmy Htask.
  pose proof (check_subsystem_passes my task s fail P A Hmy Htask) as Hpass.
  rewrite in_expected_subcgroup_spec in Hpass.
  split; [exact Hpass | split; [| split; [| split]]].
  - intros HA. apply Hpass. exists EmptyString. rewrite append_nil_r. exact HA.
  - intros rest HA. apply Hpass. exists rest. exact HA.
  - apply path_join_benchmark.
  - intros Hne Hslash HA. apply Hpass. exists "anything".
    rewrite path_join_benchmark, Hne, Hslash, HA. cbn [negb orb].
    clear. induction P as [|c P IH]; [reflexivity|].
    rewrite !append_cons, IH. reflexivity.
Qed.

(** ** The line filter (lines 53-61) *)

(** A stripped line is dropped exactly when it is empty, is the echoed
    command, or consists of dashes only. *)
Lemma keep_line_false (wait : Z) (line : string) :
  keep_line wait line = false <->
  line = EmptyString
  \/ line = "sh -c 'sleep " +:+ PyStr.str_of_int wait +:+ "; cat /proc/self/cgroup'"
  \/ Forall (fun c => c = "-"%char) (list_ascii_of_string line).
Proof.
  unfold keep_line, echoed_command.
  rewrite !andb_false_iff, !negb_false_iff, truthy_false, String.eqb_eq, all_eq_spec.
  tauto.
Qed.

Lemma endswith_char_append (r : string) (c : ascii) :
  PyStr.endswith_char (r +:+ String c EmptyString) c = true.
Proof.
  induction r as [|a r IH].
  - rewrite append_nil. cbn. apply Ascii.eqb_refl.
  - rewrite append_cons. cbn [PyStr.endswith_char].
    destruct r as [|b r]; [rewrite append_nil in *|rewrite append_cons in *]; exact IH.
Qed.

(** The whitespace of [str.strip], by code point. *)
Lemma isspace_code_points (c : ascii) :
  PyStr.isspace c = true <->
  In (N_of_ascii c) [9; 10; 11; 12; 13; 28; 29; 30; 31; 32; 133; 160]%N.
Proof.
  unfold PyStr.isspace. cbn [In].
  rewrite !orb_true_iff, !andb_true_iff, !N.leb_le, !N.eqb_eq. lia.
Qed.

(** C5 (amended). For every sequence of captured lines, the filter strips
    the surrounding whitespace of every line, removes exactly the stripped
    lines that are empty, equal to the echoed shell command for the given
    wait value, or made of dashes only, and keeps all other stripped lines in
    their original order.  Stripping takes whitespace, and nothing else,
    from the two ends of a line, and leaves no whitespace at either end:
    the stripped line neither starts nor ends with a whitespace character.
    Whitespace is the characters with the code points 9 to 13, 28 to 32,
    133 and 160. *)
Theorem read_lines_strips_and_filters (wait : Z) (tmp : list string) :
  read_lines wait tmp = List.filter (keep_line wait) (PyStr.strip <$> tmp)
  /\ (forall line,
        keep_line wait line = false <->
        line = EmptyString
        \/ line = "sh -c 'sleep " +:+ PyStr.str_of_int wait +:+ "; cat /proc/self/cgroup'"
        \/ Forall (fun c => c = "-"%char) (list_ascii_of_string line))
  /\ (forall line,
        exists pre post,
          line = pre +:+ PyStr.strip line +:+ post /\ whitespace pre /\ whitespace post)
  /\ (forall line c rest,
        PyStr.strip line = String c rest -> PyStr.isspace c = false)
  /\ (forall line front c,
        PyStr.strip line = front +:+ String c EmptyString -> PyStr.isspace c = false)
  /\ (forall c,
        PyStr.isspace c = true <->
        In (N_of_ascii c) [9; 10; 11; 12; 13; 28; 29; 30; 31; 32; 133; 160]%N).
Proof.
  split; [|split; [apply keep_line_false|split; [intros line; apply strip_spec|]]].
  - induction tmp as [|line tmp IH]; [reflexivity|].
    rewrite fmap_cons. cbn [read_lines List.filter].
    destruct (keep_line wait (PyStr.strip line)); rewrite IH; reflexivity.
  - split; [|split; [|apply isspace_code_points]].
    + intros line c rest H. destruct (strip_spec line) as (_ & Hhead & _).
      exact (Hhead c rest H).
    + intros line front c H. destruct (strip_spec line) as (_ & _ & Hlast).
      apply Hlast. rewrite H. apply endswith_char_append.
Qed.

(** ** The check as a whole *)

Section Properties.

Variable env : Platform.

(** Lines 36-42: without the three required subsystems the check exits at
    once, and nothing is observed before. *)
Lemma check_without_required (wait : Z) :
  required_present (runexecutor_cgroups env) = false ->
  check_cgroup_availability env wait = ([], Raised (SystemExit 1)).
Proof.
  intros H. unfold check_cgroup_availability.
  unfold required_present in H. rewrite H. reflexivity.
Qed.

(** With the required subsystems present and the probe stage going through,
    the check is the executor call followed by the comparison loop. *)
Lemma check_after_probe (wait : Z) (spec : ProbeSpec) (task : Cgroup) :
  required_present (runexecutor_cgroups env) = true ->
  probe_stage env wait spec task ->
  let loop := for_each [CPUACCT; CPUSET; MEMORY; FREEZER]
                (check_subsystem (runexecutor_cgroups env) task) false in
  check_cgroup_availability env wait =
    (EvExecuteRun spec :: trace loop, after_loop (outcome loop)).
Proof.
  intros Hreq Hprobe loop. destruct Hprobe as [cpus cores nodes tmp task H1 H2 H3 H4 H5].
  unfold check_cgroup_availability.
  unfold required_present in Hreq. rewrite Hreq. cbn [negb].
  autorewrite with run. run_step H1. run_step H2. run_step H3.
  unfold execute_run. change (1024 * 1024) with 1048576.
  autorewrite with run. rewrite H4, bind_returned. run_step H5.
  fold loop. destruct loop as [t [[|]|e]]; cbn; rewrite ?app_nil_r; reflexivity.
Qed.

(** The check calls the executor at most once, and with a specification
    built from the results of the three calls before it. *)
Lemma executor_calls_of_check (wait : Z) :
  executor_calls (trace (check_cgroup_availability env wait)) = []
  \/ exists cpus cores nodes,
       get_value env (runexecutor_cgroups env) CPUSET "cpus" = Returned cpus
       /\ parse_int_list env cpus = Returned cores
       /\ read_allowed_memory_banks env (runexecutor_cgroups env) = Returned nodes
       /\ executor_calls (trace (check_cgroup_availability env wait)) =
            [mkProbeSpec ["sh"; "-c"; probe_command wait] (tmp_name env) 1048576
                         cores nodes].
Proof.
  unfold check_cgroup_availability.
  destruct (negb _); [left; reflexivity|].
  rewrite bind_mret.
  destruct (get_value env (runexecutor_cgroups env) CPUSET "cpus") as [cpus|e] eqn:H1;
    [|left; reflexivity].
  rewrite bind_call_returned.
  destruct (parse_int_list env cpus) as [cores|e] eqn:H2; [|left; reflexivity].
  rewrite bind_call_returned.
  destruct (read_allowed_memory_banks env (runexecutor_cgroups env)) as [nodes|e] eqn:H3;
    [|left; reflexivity].
  rewrite bind_call_returned.
  right. exists cpus, cores, nodes. do 3 (split; [first [assumption | reflexivity]|]).
  unfold execute_run. change (1024 * 1024) with 1048576.
  rewrite bind_emit, trace_call, outcome_call.
  destruct (probe_executor env _) as [tmp|e]; [|reflexivity].
  rewrite bind_returned.
  destruct (find_my_cgroups env (read_lines wait tmp) false) as [task|e]; [|reflexivity].
  rewrite bind_call_returned.
  cbn [trace fst app]. rewrite executor_calls_run. f_equal.
  rewrite executor_calls_bind, loop_executor_calls.
  destruct (outcome _) as [[|]|e]; reflexivity.
Qed.

(** C7. For every wait value, the probe specification handed to the probe
    executor has the command that sleeps wait seconds (the number in the
    command is the decimal numeral of wait) and then prints the cgroup
    membership of the process, a memory limit of exactly 1048576 bytes, the
    core list that parsing the cpus attribute of the own cpuset cgroup
    returned, and the memory nodes that reading the allowed memory banks
    returned. *)
Theorem probe_spec_handed_to_executor (wait : Z) (spec : ProbeSpec) :
  EvExecuteRun spec ∈ trace (check_cgroup_availability env wait) ->
  args spec = ["sh"; "-c"; "sleep " +:+ PyStr.str_of_int wait +:+ "; cat /proc/self/cgroup"]
  /\ Z.of_int <$> NilZero.int_of_string (PyStr.str_of_int wait) = Some wait
  /\ memlimit spec = 1048576
  /\ (exists cpus,
        get_value env (runexecutor_cgroups env) CPUSET "cpus" = Returned cpus
        /\ parse_int_list env cpus = Returned (cores spec))
  /\ read_allowed_memory_banks env (runexecutor_cgroups env)
       = Returned (memory_nodes spec).
Proof.
  intros Hin.
  assert (spec ∈ executor_calls (trace (check_cgroup_availability env wait))) as Hcall.
  { unfold executor_calls. apply list_elem_of_omap. exists (EvExecuteRun spec). auto. }
  destruct (executor_calls_of_check wait) as [H|(cpus & cores & nodes & H1 & H2 & H3 & H)];
    rewrite H in Hcall.
  - inversion Hcall.
  - apply list_elem_of_singleton in Hcall. subst spec. cbn.
    split; [reflexivity | split; [apply str_of_int_denotes|]].
    repeat split; eauto.
Qed.

(** C2. For every own snapshot in which CPUACCT, CPUSET or MEMORY is absent,
    the check ends with exit status 1 and the probe executor is never
    called; a snapshot in which only FREEZER is absent does not end the
    check there: once the calls that prepare the probe return, the executor
    is called. *)
Theorem missing_required_subsystem_exits_without_probe (wait : Z) :
  let my := runexecutor_cgroups env in
  let r := check_cgroup_availability env wait in
  (my !! CPUACCT = None \/ my !! CPUSET = None \/ my !! MEMORY = None ->
   outcome r = Raised (SystemExit 1) /\ trace r = [] /\ executor_calls (trace r) = [])
  /\ (is_Some (my !! CPUACCT) -> is_Some (my !! CPUSET) -> is_Some (my !! MEMORY) ->
      my !! FREEZER = None ->
      forall cpus cores nodes,
        get_value env my CPUSET "cpus" = Returned cpus ->
        parse_int_list env cpus = Returned cores ->
        read_allowed_memory_banks env my = Returned nodes ->
        exists t,
          trace r =
            EvExecuteRun (mkProbeSpec ["sh"; "-c"; probe_command wait] (tmp_name env)
                                      1048576 cores nodes) :: t).
Proof.
  intros my r. split.
  - intros H. apply required_present_spec in H.
    subst r. rewrite (check_without_required wait H). repeat split.
  - intros Ha Hs Hm _ cpus cores nodes H1 H2 H3.
    subst r. unfold check_cgroup_availability. fold my.
    apply contains_spec in Ha, Hs, Hm. rewrite Ha, Hs, Hm. cbn [andb negb].
    autorewrite with run. run_step H1. run_step H2. run_step H3.
    unfold execute_run. change (1024 * 1024) with 1048576.
    autorewrite with run.
    destruct (probe_executor env _) as [tmp|e];
      [rewrite bind_returned | rewrite bind_raised]; eexists; reflexivity.
Qed.

(** With the required subsystems present, the probe stage going through and
    a path in the placement result for every subsystem of the own snapshot,
    the check compares all four subsystems: after the executor call it logs
    one warning per misplaced subsystem, and it exits with status 1 exactly
    when there is one. *)
Lemma check_full_comparison (wait : Z) (spec : ProbeSpec) (task : Cgroup) :
  let my := runexecutor_cgroups env in
  let four := [CPUACCT; CPUSET; MEMORY; FREEZER] in
  required_present my = true ->
  probe_stage env wait spec task ->
  covers task my ->
  check_cgroup_availability env wait =
    (EvExecuteRun spec :: (warning_for my task <$> List.filter (misplaced my task) four),
     if existsb (misplaced my task) four then Raised (SystemExit 1) else Returned tt).
Proof.
  intros my four Hreq Hprobe Hcov.
  rewrite (check_after_probe wait spec task Hreq Hprobe).
  rewrite comparison_loop by (intros s _; apply Hcov).
  cbn [trace outcome fst snd orb]. fold my four.
  destruct (existsb (misplaced my task) four); reflexivity.
Qed.

(** The run when the loop meets a subsystem of the own snapshot without a
    path: the executor call, the warnings of the subsystems before it, and
    [KeyError]. *)
Lemma check_stops_at_missing_path (wait : Z) (spec : ProbeSpec) (task : Cgroup)
    (pre post : list Subsystem) (k : Subsystem) :
  let my := runexecutor_cgroups env in
  required_present my = true ->
  probe_stage env wait spec task ->
  [CPUACCT; CPUSET; MEMORY; FREEZER] = pre ++ k :: post ->
  (forall s, s ∈ pre -> contains my s = true -> is_Some (task !! s)) ->
  contains my k = true -> task !! k = None ->
  check_cgroup_availability env wait =
    (EvExecuteRun spec :: (warning_for my task <$> List.filter (misplaced my task) pre),
     Raised (KeyError k)).
Proof.
  cbv zeta. intros Hreq Hprobe Hfour Hpre Hk Hmiss.
  rewrite (check_after_probe wait spec task Hreq Hprobe), Hfour.
  rewrite (comparison_loop_missing _ task pre post k false Hpre Hk Hmiss).
  reflexivity.
Qed.

(** C1 (amended). For every own snapshot that holds the three required
    subsystems and every placement result, produced by the probe stage, that
    has a path for every subsystem of the own snapshot: the check records a
    deviation for a subsystem if and only if that subsystem is in the own
    snapshot and its placement path does not start with the own path joined
    with benchmark_; the check returns normally exactly when no deviation is
    recorded. *)
Theorem deviations_recorded_iff_misplaced (wait : Z) (spec : ProbeSpec) (task : Cgroup) :
  required_present (runexecutor_cgroups env) = true ->
  probe_stage env wait spec task ->
  covers task (runexecutor_cgroups env) ->
  deviations_as_claimed (runexecutor_cgroups env) task
    (check_cgroup_availability env wait).
Proof.
  intros Hreq Hprobe Hcov.
  rewrite (check_full_comparison wait spec task Hreq Hprobe Hcov).
  unfold deviations_as_claimed. cbn [trace outcome fst snd].
  rewrite deviations_run, deviations_warnings. split.
  - intros s. rewrite <- misplaced_spec, list_elem_of_In, filter_In, <- list_elem_of_In.
    pose proof (all_subsystems s). tauto.
  - rewrite filter_nil_existsb.
    destruct (existsb _ _); split; intros H; try reflexivity; discriminate H.
Qed.

(** C3 (amended). For every own snapshot that holds the three required
    subsystems and every placement result, produced by the probe stage, that
    has a path for every subsystem of the own snapshot and in which at least
    one subsystem is misplaced: the check compares all four subsystems, the
    recorded deviations are exactly the misplaced subsystems, and only then
    the check exits with status 1. *)
Theorem all_deviations_collected_before_exit (wait : Z) (spec : ProbeSpec) (task : Cgroup) :
  required_present (runexecutor_cgroups env) = true ->
  probe_stage env wait spec task ->
  covers task (runexecutor_cgroups env) ->
  full_comparison_as_claimed (runexecutor_cgroups env) task
    (check_cgroup_availability env wait).
Proof.
  intros Hreq Hprobe Hcov [s Hs].
  rewrite (check_full_comparison wait spec task Hreq Hprobe Hcov).
  cbn [trace outcome fst snd].
  rewrite deviations_run, deviations_warnings. split; [reflexivity | split].
  - intros s'. rewrite list_elem_of_In, filter_In, <- list_elem_of_In.
    pose proof (all_subsystems s'). tauto.
  - assert (existsb (misplaced (runexecutor_cgroups env) task)
              [CPUACCT; CPUSET; MEMORY; FREEZER] = true) as ->; [|reflexivity].
    apply existsb_exists. exists s. split; [|exact Hs].
    apply list_elem_of_In, all_subsystems.
Qed.

(** C4 (amended). When the own snapshot holds the three required subsystems
    and the probe stage goes through: if some subsystem of the own snapshot
    has no path in the placement result, the check raises KeyError for such
    a subsystem, a required one or the freezer alike, namely for the first
    one that the loop reaches, after the warnings of the subsystems before
    it; a subsystem without a path is never recorded as a deviation; and a
    subsystem that is not in the own snapshot is never looked up in the
    placement result, so that its missing path is tolerated: it never is the
    cause of a KeyError. *)
Theorem missing_placement_path_raises (wait : Z) (spec : ProbeSpec) (task : Cgroup) :
  let my := runexecutor_cgroups env in
  let r := check_cgroup_availability env wait in
  required_present my = true ->
  probe_stage env wait spec task ->
  ((exists s, contains my s = true /\ task !! s = None) ->
   exists k, contains my k = true /\ task !! k = None
     /\ outcome r = Raised (KeyError k))
  /\ (forall pre k post,
        [CPUACCT; CPUSET; MEMORY; FREEZER] = pre ++ k :: post ->
        (forall s, s ∈ pre -> contains my s = true -> is_Some (task !! s)) ->
        contains my k = true -> task !! k = None ->
        r = (EvExecuteRun spec
               :: (warning_for my task <$> List.filter (misplaced my task) pre),
             Raised (KeyError k)))
  /\ (forall s, task !! s = None -> s ∉ deviations (trace r))
  /\ (forall s, my !! s = None -> outcome r <> Raised (KeyError s)).
Proof.
  intros my r Hreq Hprobe.
  split; [|split; [intros pre k post;
                   exact (check_stops_at_missing_path wait spec task pre post k
                            Hreq Hprobe)|]];
    pose proof (check_after_probe wait spec task Hreq Hprobe) as Hr;
    cbv zeta in Hr; fold my r in Hr; rewrite Hr; cbn [trace outcome fst snd];
    [|split].
  - intros (s & Hc & Hmiss).
    destruct (loop_missing_raises my task [CPUACCT; CPUSET; MEMORY; FREEZER] false)
      as (k & Hk & Hkmiss & Hout).
    { exists s. split; [apply all_subsystems | auto]. }
    exists k. rewrite Hout. auto.
  - intros s Hmiss. rewrite deviations_run. intros H.
    apply loop_deviations_misplaced in H.
    rewrite (misplaced_missing _ _ _ Hmiss) in H. discriminate H.
  - intros s Hs.
    destruct (loop_outcome_cases my task [CPUACCT; CPUSET; MEMORY; FREEZER] false)
      as [[b Hb]|(k & Hk & _ & Hb)]; rewrite Hb.
    + destruct b; discriminate.
    + cbn. intros [= ->]. apply contains_false in Hs. congruence.
Qed.

(** ** The thread wrapper and the two modes *)

Lemma run_spec (self : _CheckCgroupsThread) :
  let checked := check_cgroup_availability env (wait (options self)) in
  run env self =
    (trace checked,
     Returned match outcome checked with
              | Returned _ => self
              | Raised e => mkThread (options self) (Some e)
              end).
Proof.
  cbv zeta. unfold run.
  destruct (check_cgroup_availability env (wait (options self))) as [t [[]|e]].
  - rewrite bind_returned. cbn. rewrite app_nil_r. reflexivity.
  - cbn. rewrite app_nil_r. reflexivity.
Qed.

Lemma start_join_spec (thread : _CheckCgroupsThread) :
  let checked := check_cgroup_availability env (wait (options thread)) in
  start_join env thread =
    (EvThreadStart :: (EvInThread <$> trace checked) ++ [EvThreadJoin],
     Returned match outcome checked with
              | Returned _ => thread
              | Raised e => mkThread (options thread) (Some e)
              end).
Proof.
  cbv zeta. unfold start_join. rewrite run_spec.
  rewrite bind_emit, bind_returned, bind_emit. reflexivity.
Qed.

Lemma in_thread_spec (opts : Namespace) :
  let checked := check_cgroup_availability env (wait opts) in
  check_cgroup_availability_in_thread env opts =
    (EvThreadStart :: (EvInThread <$> trace checked) ++ [EvThreadJoin],
     outcome checked).
Proof.
  cbv zeta. unfold check_cgroup_availability_in_thread.
  rewrite start_join_spec, bind_returned. cbn [options wait].
  destruct (outcome (check_cgroup_availability env (wait opts))) as [[]|e];
    cbn; rewrite app_nil_r; reflexivity.
Qed.

(** [main] with a parsed command line is the check in the mode that
    [--no-thread] selects, with the parsed wait value. *)
Lemma main_dispatch (argv : list string) (opts : Namespace) :
  parse_args env (drop 1 argv) = Returned opts ->
  main env (Some argv) =
    if no_thread opts then check_cgroup_availability env (wait opts)
    else check_cgroup_availability_in_thread env opts.
Proof. intros H. unfold main. rewrite H, bind_call_returned. reflexivity. Qed.

(** C6. For the same platform (the same snapshot and the same placement
    result), the isolated mode and the direct mode have the same outcome and
    record the same deviations: the isolated mode starts exactly one worker
    thread, runs the same check on it, joins it after the last event of the
    check, returns when the check returned and otherwise raises, on the
    calling thread, the exception that the check raised, the exit of the
    check included.  So [main] ends the same way with and without
    [--no-thread]. *)
Theorem isolated_mode_agrees_with_direct_mode (opts : Namespace) (prog : string) :
  let direct := check_cgroup_availability env (wait opts) in
  let isolated := check_cgroup_availability_in_thread env opts in
  outcome isolated = outcome direct
  /\ trace isolated = [EvThreadStart] ++ (EvInThread <$> trace direct) ++ [EvThreadJoin]
  /\ thread_starts (trace isolated) = 1%nat
  /\ deviations (trace isolated) = deviations (trace direct)
  /\ executor_calls (trace isolated) = executor_calls (trace direct)
  /\ outcome (main env (Some [prog])) = outcome (main env (Some [prog; "--no-thread"])).
Proof.
  cbv zeta. rewrite in_thread_spec. cbn [trace outcome fst snd].
  change (EvThreadStart :: ?t) with ([EvThreadStart] ++ t).
  split; [reflexivity | split; [reflexivity | split; [|split; [|split]]]].
  - rewrite !thread_starts_app, thread_starts_in_thread. reflexivity.
  - rewrite !deviations_app, deviations_in_thread. cbn. apply app_nil_r.
  - rewrite !executor_calls_app, executor_calls_in_thread. cbn. apply app_nil_r.
  - rewrite (main_dispatch [prog] (mkNamespace 1 false)) by reflexivity.
    rewrite (main_dispatch [prog; "--no-thread"] (mkNamespace 1 true)) by reflexivity.
    cbn [no_thread wait]. rewrite in_thread_spec. reflexivity.
Qed.

(** C10. In isolated mode the worker catches every exception raised inside
    the check and stores it in its error slot, and after the join the
    wrapper raises that very exception on the calling thread; when the check
    of the worker returns, the error slot stays None and the wrapper
    returns.  The check can raise every exception, KeyboardInterrupt and
    SystemExit included: the probe executor may raise it. *)
Theorem worker_exception_is_reraised (opts : Namespace) :
  let thread := mkThread opts None in
  let checked := check_cgroup_availability env (wait opts) in
  (forall e,
     outcome checked = Raised e ->
     outcome (run env thread) = Returned (mkThread opts (Some e))
     /\ error <$> outcome_value (start_join env thread) = Some (Some e)
     /\ outcome (check_cgroup_availability_in_thread env opts) = Raised e)
  /\ (outcome checked = Returned tt ->
      outcome (run env thread) = Returned (mkThread opts None)
      /\ error <$> outcome_value (start_join env thread) = Some None
      /\ outcome (check_cgroup_availability_in_thread env opts) = Returned tt)
  /\ (forall e, outcome (check_cgroup_availability
                           (failing_platform own_abc e) (wait opts)) = Raised e).
Proof.
  cbv zeta. rewrite run_spec, start_join_spec, in_thread_spec.
  unfold outcome_value. cbn [trace outcome fst snd options wait].
  split; [|split].
  - intros e ->. repeat split.
  - intros ->. repeat split.
  - intros e. reflexivity.
Qed.

(** C8 (the code at the failing input).  The command lines [--wait=-5] and
    [--wait -5] are accepted and parsed to the wait value -5, which [main]
    hands to the check in either mode; without the option the wait value
    is 1. *)
Theorem negative_wait_reaches_the_check (prog : string) :
  parse_args env ["--wait=-5"; "--no-thread"] = Returned (mkNamespace (-5) true)
  /\ parse_args env ["--wait"; "-5"] = Returned (mkNamespace (-5) false)
  /\ main env (Some [prog; "--wait=-5"; "--no-thread"])
       = check_cgroup_availability env (-5)
  /\ main env (Some [prog; "--wait"; "-5"])
       = check_cgroup_availability_in_thread env (mkNamespace (-5) false)
  /\ parse_args env [] = Returned (mkNamespace 1 false).
Proof.
  split; [reflexivity | split; [reflexivity | split; [|split; [|reflexivity]]]].
  - rewrite (main_dispatch _ (mkNamespace (-5) true)) by reflexivity. reflexivity.
  - rewrite (main_dispatch _ (mkNamespace (-5) false)) by reflexivity. reflexivity.
Qed.

End Properties.

(** ** The model at sample inputs *)

Example strip_ex :
  PyStr.strip ("  4:memory:/a " +:+ newline) = "4:memory:/a".
Proof. reflexivity. Qed.

Example str_of_int_ex :
  PyStr.str_of_int 0 = "0" /\ PyStr.str_of_int (-5) = "-5" /\ PyStr.str_of_int 120 = "120".
Proof. repeat split; reflexivity. Qed.

Example path_join_ex :
  PyStr.path_join "/a" "benchmark_" = "/a/benchmark_"
  /\ PyStr.path_join "/a/" "benchmark_" = "/a/benchmark_"
  /\ PyStr.path_join "" "benchmark_" = "benchmark_".
Proof. repeat split; reflexivity. Qed.

Example int_of_str_ex :
  PyStr.int_of_str "-5" = Some (-5) /\ PyStr.int_of_str " 12 " = Some 12
  /\ PyStr.int_of_str "1_000" = Some 1000 /\ PyStr.int_of_str "1__0" = None
  /\ PyStr.int_of_str "" = None /\ PyStr.int_of_str "+7" = Some 7
  /\ PyStr.int_of_str "x" = None.
Proof. repeat split; reflexivity. Qed.

Example int_of_str_whitespace_ex :
  PyStr.int_of_str (String (ascii_of_nat 28) "5") = None
  /\ PyStr.strip (String (ascii_of_nat 28) "5") = "5"
  /\ PyStr.int_of_str (String (ascii_of_nat 160) "5") = Some 5
  /\ PyStr.int_of_str ("5" +:+ newline) = Some 5
  /\ PyStr.int_of_str "- 5" = None.
Proof. repeat split; reflexivity. Qed.

Example option_uses_ex :
  Argparse.option_uses ["--wait=-5"; "--no-thread"]
    = Some [Argparse.UseWait "-5"; Argparse.UseNoThread]
  /\ Argparse.option_uses ["--wait"; "-5"] = Some [Argparse.UseWait "-5"]
  /\ Argparse.option_uses ["--wait"; "--no-thread"] = None
  /\ Argparse.option_uses ["--wai"; "3"] = None.
Proof. repeat split; reflexivity. Qed.

(** The scenarios of the specification. *)
Example sample_run_passes :
  check_cgroup_availability (sample_platform own_abc placed_in_benchmark) 1
  = ([EvExecuteRun sample_spec], Returned tt).
Proof. vm_compute. reflexivity. Qed.

Example sample_run_deviates :
  check_cgroup_availability (sample_platform own_abc placed_elsewhere) 1
  = ([EvExecuteRun sample_spec; EvWarning "/other/1" CPUACCT "/a"], Raised (SystemExit 1)).
Proof. vm_compute. reflexivity. Qed.

Example sample_run_exits_early :
  check_cgroup_availability (sample_platform own_without_memory placed_in_benchmark) 1
  = ([], Raised (SystemExit 1)).
Proof. vm_compute. reflexivity. Qed.

(** A placement result without the path of a subsystem of the own snapshot:
    of a required one, and of the freezer. *)
Example sample_run_keyerror :
  check_cgroup_availability (sample_platform own_abc placed_without_cpuset) 1
  = ([EvExecuteRun sample_spec; EvWarning "/other/1" CPUACCT "/a"], Raised (KeyError CPUSET)).
Proof. vm_compute. reflexivity. Qed.

Example sample_run_keyerror_freezer :
  check_cgroup_availability (sample_platform own_with_freezer placed_in_benchmark) 1
  = ([EvExecuteRun sample_spec], Raised (KeyError FREEZER)).
Proof. vm_compute. reflexivity. Qed.

Example sample_run_in_thread :
  check_cgroup_availability_in_thread (sample_platform own_abc placed_elsewhere)
    (mkNamespace 1 false)
  = ([EvThreadStart; EvInThread (EvExecuteRun sample_spec);
      EvInThread (EvWarning "/other/1" CPUACCT "/a"); EvThreadJoin],
     Raised (SystemExit 1)).
Proof. vm_compute. reflexivity. Qed.

Example sample_read_lines :
  read_lines 1 sample_output = ["4:memory:/c/benchmark_1/x"].
Proof. vm_compute. reflexivity. Qed.

Example sample_run_negative_wait :
  executor_calls
    (trace (check_cgroup_availability (sample_platform own_abc placed_in_benchmark) (-5)))
  = [mkProbeSpec ["sh"; "-c"; "sleep -5; cat /proc/self/cgroup"] "/tmp/tmpcheck"
                 1048576 [0; 1] [0]].
Proof. vm_compute. reflexivity. Qed.

(** ** The claims at sample inputs *)

Lemma sample_probe_stage (my task : Cgroup) :
  probe_stage (sample_platform my task) 1 sample_spec task.
Proof.
  exact (probe_stage_intro (sample_platform my task) 1 "0-1" [0; 1] [0]
           sample_output task eq_refl eq_refl eq_refl eq_refl eq_refl).
Defined.

Lemma own_abc_required : required_present own_abc = true.
Proof. reflexivity. Defined.

Lemma covers_own_abc (task : Cgroup) :
  is_Some (task !! CPUACCT) -> is_Some (task !! CPUSET) -> is_Some (task !! MEMORY) ->
  covers task own_abc.
Proof.
  intros Ha Hs Hm [] H; try assumption. vm_compute in H. discriminate H.
Defined.

(** C1, as stated, fails.  On a snapshot without the memory subsystem the
    check exits before the probe: no deviation is recorded, and the check
    does not return.  On the snapshot of the scenarios and a placement
    result without a path for cpuacct, the check ends with KeyError: again
    no deviation is recorded and the check does not return. *)
Lemma deviations_claim_fails_without_required_or_path :
  ~ deviations_as_claimed own_without_memory placed_in_benchmark
      (check_cgroup_availability (sample_platform own_without_memory placed_in_benchmark) 1)
  /\ ~ deviations_as_claimed own_abc placed_without_cpuacct
         (check_cgroup_availability (sample_platform own_abc placed_without_cpuacct) 1).
Proof.
  split; intros [_ H]; vm_compute in H; destruct H as [_ H];
    specialize (H eq_refl); discriminate H.
Qed.

Lemma deviations_recorded_iff_misplaced_witness :
  required_present own_abc = true
  /\ probe_stage (sample_platform own_abc placed_elsewhere) 1 sample_spec placed_elsewhere
  /\ covers placed_elsewhere own_abc
  /\ deviations_as_claimed own_abc placed_elsewhere
       (check_cgroup_availability (sample_platform own_abc placed_elsewhere) 1).
Proof.
  assert (covers placed_elsewhere own_abc) as Hcov
    by (apply covers_own_abc; eexists; reflexivity).
  split; [exact own_abc_required | split; [apply sample_probe_stage | split; [exact Hcov|]]].
  exact (deviations_recorded_iff_misplaced (sample_platform own_abc placed_elsewhere)
           1 sample_spec placed_elsewhere own_abc_required
           (sample_probe_stage own_abc placed_elsewhere) Hcov).
Defined.

Lemma missing_required_subsystem_exits_without_probe_witness :
  (own_without_memory !! MEMORY = None
   /\ check_cgroup_availability (sample_platform own_without_memory placed_in_benchmark) 1
      = ([], Raised (SystemExit 1)))
  /\ (own_abc !! FREEZER = None
      /\ exists t,
           trace (check_cgroup_availability (sample_platform own_abc placed_in_benchmark) 1)
           = EvExecuteRun sample_spec :: t).
Proof.
  split.
  - split; [reflexivity|].
    destruct (missing_required_subsystem_exits_without_probe
                (sample_platform own_without_memory placed_in_benchmark) 1) as [H _].
    destruct H as (Ho & Ht & _); [right; right; reflexivity|].
    destruct (check_cgroup_availability _ 1) as [t o]. cbn in Ho, Ht.
    rewrite Ho, Ht. reflexivity.
  - split; [reflexivity|].
    destruct (missing_required_subsystem_exits_without_probe
                (sample_platform own_abc placed_in_benchmark) 1) as [_ H].
    apply (H ltac:(eexists; reflexivity) ltac:(eexists; reflexivity)
             ltac:(eexists; reflexivity) eq_refl "0-1" [0; 1] [0]); reflexivity.
Defined.

(** C3, as stated, fails.  The snapshot holds the required subsystems and
    the probe stage goes through; in the placement result cpuacct and memory
    are misplaced and cpuset has no path.  The check logs the deviation of
    cpuacct and ends with KeyError at cpuset: memory is never compared and
    the check does not end with its exit. *)
Lemma full_comparison_claim_fails_on_missing_path :
  ~ full_comparison_as_claimed own_abc placed_without_cpuset
      (check_cgroup_availability (sample_platform own_abc placed_without_cpuset) 1).
Proof.
  intros H. destruct H as (_ & _ & H); [exists MEMORY; reflexivity|].
  vm_compute in H. discriminate H.
Qed.

Lemma all_deviations_collected_before_exit_witness :
  required_present own_abc = true
  /\ probe_stage (sample_platform own_abc placed_elsewhere) 1 sample_spec placed_elsewhere
  /\ covers placed_elsewhere own_abc
  /\ misplaced own_abc placed_elsewhere CPUACCT = true
  /\ deviations
       (trace (check_cgroup_availability (sample_platform own_abc placed_elsewhere) 1))
     = [CPUACCT]
  /\ outcome (check_cgroup_availability (sample_platform own_abc placed_elsewhere) 1)
     = Raised (SystemExit 1).
Proof.
  assert (covers placed_elsewhere own_abc) as Hcov
    by (apply covers_own_abc; eexists; reflexivity).
  split; [exact own_abc_required | split; [apply sample_probe_stage | split; [exact Hcov|]]].
  split; [reflexivity|].
  destruct (all_deviations_collected_before_exit (sample_platform own_abc placed_elsewhere)
              1 sample_spec placed_elsewhere own_abc_required
              (sample_probe_stage own_abc placed_elsewhere) Hcov) as (Hd & _ & Ho);
    [exists CPUACCT; reflexivity|].
  split; [rewrite Hd; reflexivity | exact Ho].
Defined.

(** C4, as stated, fails.  In the placement result cpuacct has no path: the
    check raises KeyError, and cpuacct, a required subsystem, is not among
    the deviations. *)
Lemma missing_path_claim_fails :
  ~ missing_path_as_claimed placed_without_cpuacct
      (check_cgroup_availability (sample_platform own_abc placed_without_cpuacct) 1).
Proof.
  intros H. destruct (H CPUACCT eq_refl) as [[Ho|Ho] _];
    vm_compute in Ho; discriminate Ho.
Qed.

Lemma missing_placement_path_raises_witness :
  required_present own_abc = true
  /\ probe_stage (sample_platform own_abc placed_without_cpuset) 1 sample_spec
       placed_without_cpuset
  /\ contains own_abc CPUSET = true
  /\ placed_without_cpuset !! CPUSET = None
  /\ exists k,
       contains own_abc k = true /\ placed_without_cpuset !! k = None
       /\ outcome (check_cgroup_availability
                     (sample_platform own_abc placed_without_cpuset) 1)
          = Raised (KeyError k).
Proof.
  split; [exact own_abc_required | split; [apply sample_probe_stage|]].
  split; [reflexivity | split; [reflexivity|]].
  destruct (missing_placement_path_raises (sample_platform own_abc placed_without_cpuset)
              1 sample_spec placed_without_cpuset own_abc_required
              (sample_probe_stage own_abc placed_without_cpuset)) as [H _].
  apply H. exists CPUSET. split; reflexivity.
Defined.

(** C5, as stated, fails: a kept line is not kept unchanged, it is kept
    stripped.  The one line of this output passes the three tests, and what
    the filter keeps is not that line. *)
Lemma read_lines_changes_kept_lines :
  read_lines 1 ["  4:memory:/c/benchmark_1/x" +:+ newline]
  <> List.filter (fun line => keep_line 1 (PyStr.strip line))
       ["  4:memory:/c/benchmark_1/x" +:+ newline].
Proof. vm_compute. discriminate. Qed.

Lemma probe_spec_handed_to_executor_witness :
  EvExecuteRun sample_spec
    ∈ trace (check_cgroup_availability (sample_platform own_abc placed_in_benchmark) 1)
  /\ args sample_spec = ["sh"; "-c"; "sleep 1; cat /proc/self/cgroup"]
  /\ memlimit sample_spec = 1048576.
Proof.
  assert (EvExecuteRun sample_spec
            ∈ trace (check_cgroup_availability
                       (sample_platform own_abc placed_in_benchmark) 1)) as Hin
    by (vm_compute; left).
  split; [exact Hin|].
  destruct (probe_spec_handed_to_executor (sample_platform own_abc placed_in_benchmark)
              1 sample_spec Hin) as (Ha & _ & Hm & _).
  split; [exact Ha | exact Hm].
Defined.

Lemma placement_test_is_prefix_test_witness :
  own_a !! CPUACCT = Some "/a"
  /\ placed_anything !! CPUACCT = Some "/a/benchmark_anything"
  /\ check_subsystem own_a placed_anything CPUACCT false = mret false.
Proof.
  assert (own_a !! CPUACCT = Some "/a") as Hmy by reflexivity.
  assert (placed_anything !! CPUACCT = Some "/a/benchmark_anything") as Htask
    by reflexivity.
  split; [exact Hmy | split; [exact Htask|]].
  destruct (placement_test_is_prefix_test own_a placed_anything
              CPUACCT false "/a" "/a/benchmark_anything" Hmy Htask)
    as (_ & _ & H & _).
  apply (H "anything"). reflexivity.
Defined.

Lemma worker_exception_is_reraised_witness :
  outcome (check_cgroup_availability (failing_platform own_abc KeyboardInterrupt) 1)
    = Raised KeyboardInterrupt
  /\ outcome (check_cgroup_availability_in_thread
                (failing_platform own_abc KeyboardInterrupt) (mkNamespace 1 false))
     = Raised KeyboardInterrupt.
Proof.
  assert (outcome (check_cgroup_availability
                     (failing_platform own_abc KeyboardInterrupt) 1)
          = Raised KeyboardInterrupt) as Hraised by reflexivity.
  split; [exact Hraised|].
  destruct (worker_exception_is_reraised (failing_platform own_abc KeyboardInterrupt)
              (mkNamespace 1 false)) as [H _].
  exact (proj2 (proj2 (H KeyboardInterrupt Hraised))).
Defined.

(** ** The course of the check, for every platform *)

Section Course.

Variables my task : Cgroup.

Lemma first_missing_head (x : Subsystem) (xs : list Subsystem) :
  contains my x = true -> task !! x = None ->
  first_missing my task (x :: xs) = Some x /\ visited my task (x :: xs) = [].
Proof.
  intros Hc Hmiss. apply contains_false in Hmiss.
  cbn [first_missing visited]. rewrite Hc, Hmiss. split; reflexivity.
Qed.

Lemma first_missing_skip (x : Subsystem) (xs : list Subsystem) :
  my !! x = None ->
  first_missing my task (x :: xs) = first_missing my task xs
  /\ visited my task (x :: xs) = x :: visited my task xs.
Proof.
  intros Hmy. apply contains_false in Hmy.
  cbn [first_missing visited]. rewrite Hmy. split; reflexivity.
Qed.

Lemma first_missing_found (x : Subsystem) (xs : list Subsystem) (actual : string) :
  task !! x = Some actual ->
  first_missing my task (x :: xs) = first_missing my task xs
  /\ visited my task (x :: xs) = x :: visited my task xs.
Proof.
  intros Htask. assert (contains task x = true) as Hc by (apply contains_spec; eauto).
  cbn [first_missing visited]. rewrite Hc, andb_false_r. split; reflexivity.
Qed.

(** The loop, for every placement result: the warnings of the misplaced
    subsystems among the visited ones, and then [KeyError] for the first
    subsystem without a path, or the flag. *)
Lemma comparison_loop_exact (xs : list Subsystem) (fail : bool) :
  for_each xs (check_subsystem my task) fail =
    (warning_for my task <$> List.filter (misplaced my task) (visited my task xs),
     match first_missing my task xs with
     | Some k => Raised (KeyError k)
     | None => Returned (fail || existsb (misplaced my task) xs)
     end).
Proof.
  revert fail. induction xs as [|x xs IH]; intros fail.
  - cbn. rewrite orb_false_r. reflexivity.
  - cbn [for_each].
    destruct (check_subsystem_cases my task x fail)
      as [Hmy|own actual Hmy Htask Hexp|own actual Hmy Htask Hexp|Hc Hmiss].
    + destruct (first_missing_skip x xs Hmy) as [-> ->].
      rewrite bind_mret, IH. cbn [List.filter existsb].
      rewrite (misplaced_skipped _ _ _ Hmy). reflexivity.
    + destruct (first_missing_found x xs actual Htask) as [-> ->].
      rewrite bind_mret, IH. cbn [List.filter existsb].
      rewrite (misplaced_found _ _ _ _ _ Hmy Htask), Hexp. reflexivity.
    + destruct (first_missing_found x xs actual Htask) as [-> ->].
      rewrite bind_returned, IH. cbn [List.filter existsb trace outcome fst snd].
      rewrite (misplaced_found _ _ _ _ _ Hmy Htask), Hexp. cbn [negb orb].
      rewrite fmap_cons, (warning_for_found _ _ _ _ _ Hmy Htask).
      destruct (first_missing my task xs); [reflexivity|].
      rewrite orb_true_r. reflexivity.
    + destruct (first_missing_head x xs Hc Hmiss) as [-> ->]. reflexivity.
Qed.

Lemma first_missing_none (xs : list Subsystem) :
  first_missing my task xs = None <->
  forall s, s ∈ xs -> contains my s = true -> is_Some (task !! s).
Proof.
  induction xs as [|x xs IH]; cbn [first_missing].
  - split; [intros _ s H; inversion H | reflexivity].
  - destruct (contains my x) eqn:Hc; cbn [andb].
    + destruct (contains task x) eqn:Ht; cbn [negb].
      * rewrite IH. split.
        -- intros H s Hin Hs. apply elem_of_cons in Hin as [->|Hin];
             [apply contains_spec; exact Ht | exact (H s Hin Hs)].
        -- intros H s Hin. apply H. right. exact Hin.
      * split; [discriminate|]. intros H. exfalso.
        apply contains_false in Ht. destruct (H x) as [p Hp]; [left | exact Hc|].
        congruence.
    + rewrite IH. split.
      * intros H s Hin Hs. apply elem_of_cons in Hin as [->|Hin];
          [congruence | exact (H s Hin Hs)].
      * intros H s Hin. apply H. right. exact Hin.
Qed.

Lemma first_missing_some (xs : list Subsystem) (k : Subsystem) :
  first_missing my task xs = Some k ->
  k ∈ xs /\ contains my k = true /\ task !! k = None.
Proof.
  induction xs as [|x xs IH]; cbn [first_missing]; [discriminate|].
  destruct (contains my x && negb (contains task x)) eqn:H.
  - intros [= ->]. apply andb_true_iff in H as [Hc Ht].
    apply negb_true_iff, contains_false in Ht. split; [left | auto].
  - intros Hk. destruct (IH Hk) as (Hin & Hc & Hmiss). split; [right; exact Hin | auto].
Qed.

Lemma visited_all (xs : list Subsystem) :
  first_missing my task xs = None -> visited my task xs = xs.
Proof.
  induction xs as [|x xs IH]; cbn [first_missing visited]; [reflexivity|].
  destruct (contains my x && negb (contains task x)); [discriminate|].
  intros H. rewrite (IH H). reflexivity.
Qed.

Lemma visited_sublist (xs : list Subsystem) (f : Subsystem -> bool) :
  List.filter f (visited my task xs) `sublist_of` xs.
Proof.
  induction xs as [|x xs IH]; cbn [visited]; [constructor|].
  destruct (contains my x && negb (contains task x)); [apply sublist_nil_l|].
  cbn [List.filter]. destruct (f x); [apply sublist_skip | apply sublist_cons]; exact IH.
Qed.

End Course.

(** Every check runs in one of the ways of [check_case]. *)
Lemma check_cases (env : Platform) (wait : Z) :
  check_case env wait (check_cgroup_availability env wait).
Proof.
  destruct (required_present (runexecutor_cgroups env)) eqn:Hreq.
  2: { rewrite (check_without_required env wait Hreq). apply case_required_missing, Hreq. }
  destruct (get_value env (runexecutor_cgroups env) CPUSET "cpus") as [cpus|e] eqn:H1.
  2: { replace (check_cgroup_availability env wait) with (@raise unit e);
         [eapply case_get_value_raises; eassumption|].
       unfold check_cgroup_availability. unfold required_present in Hreq.
       rewrite Hreq, H1. reflexivity. }
  destruct (parse_int_list env cpus) as [cores|e] eqn:H2.
  2: { replace (check_cgroup_availability env wait) with (@raise unit e);
         [eapply case_parse_int_list_raises; eassumption|].
       unfold check_cgroup_availability. unfold required_present in Hreq.
       rewrite Hreq. cbn [negb]. autorewrite with run. run_step H1.
       rewrite H2. reflexivity. }
  destruct (read_allowed_memory_banks env (runexecutor_cgroups env)) as [nodes|e] eqn:H3.
  2: { replace (check_cgroup_availability env wait) with (@raise unit e);
         [eapply case_memory_banks_raises; eassumption|].
       unfold check_cgroup_availability. unfold required_present in Hreq.
       rewrite Hreq. cbn [negb]. autorewrite with run. run_step H1. run_step H2.
       rewrite H3. reflexivity. }
  destruct (probe_executor env
              (mkProbeSpec ["sh"; "-c"; probe_command wait] (tmp_name env) 1048576
                           cores nodes)) as [tmp|e] eqn:H4.
  2: { match goal with |- check_case _ _ ?r =>
         replace r with
           ([EvExecuteRun (mkProbeSpec ["sh"; "-c"; probe_command wait] (tmp_name env)
                                       1048576 cores nodes)], @Raised unit e)
       end; [eapply case_executor_raises; eassumption|].
       unfold check_cgroup_availability. unfold required_present in Hreq.
       rewrite Hreq. cbn [negb]. autorewrite with run. run_step H1. run_step H2.
       run_step H3. unfold execute_run. change (1024 * 1024) with 1048576.
       autorewrite with run. rewrite H4. reflexivity. }
  destruct (find_my_cgroups env (read_lines wait tmp) false) as [task|e] eqn:H5.
  2: { match goal with |- check_case _ _ ?r =>
         replace r with
           ([EvExecuteRun (mkProbeSpec ["sh"; "-c"; probe_command wait] (tmp_name env)
                                       1048576 cores nodes)], @Raised unit e)
       end; [eapply case_extractor_raises; eassumption|].
       unfold check_cgroup_availability. unfold required_present in Hreq.
       rewrite Hreq. cbn [negb]. autorewrite with run. run_step H1. run_step H2.
       run_step H3. unfold execute_run. change (1024 * 1024) with 1048576.
       autorewrite with run. rewrite H4, bind_returned, H5. reflexivity. }
  pose proof (probe_stage_intro env wait cpus cores nodes tmp task H1 H2 H3 H4 H5) as Hstage.
  rewrite (check_after_probe env wait _ task Hreq Hstage).
  rewrite comparison_loop_exact. cbn [trace outcome fst snd orb].
  match goal with |- check_case _ _ (?t, ?o) =>
    replace o with
      (match first_missing (runexecutor_cgroups env) task
               [CPUACCT; CPUSET; MEMORY; FREEZER] with
       | Some k => @Raised unit (KeyError k)
       | None =>
           if existsb (misplaced (runexecutor_cgroups env) task)
                [CPUACCT; CPUSET; MEMORY; FREEZER]
           then Raised (SystemExit 1) else Returned tt
       end)
  end.
  - apply case_compares; assumption.
  - destruct (first_missing _ _ _); [reflexivity|].
    destruct (existsb _ _); reflexivity.
Qed.

Lemma covers_first_missing (my task : Cgroup) :
  covers task my <-> first_missing my task [CPUACCT; CPUSET; MEMORY; FREEZER] = None.
Proof.
  rewrite first_missing_none. unfold covers. split.
  - intros H s _. apply H.
  - intros H s. apply H, all_subsystems.
Qed.

Lemma existsb_misplaced (my task : Cgroup) :
  existsb (misplaced my task) [CPUACCT; CPUSET; MEMORY; FREEZER] = true <->
  exists s, misplaced my task s = true.
Proof.
  rewrite existsb_exists. split; intros (s & H); exists s; [tauto|].
  split; [apply list_elem_of_In, all_subsystems | first [exact H | tauto]].
Qed.

Lemma probe_stage_unique (env : Platform) (wait : Z) (spec spec' : ProbeSpec)
    (task task' : Cgroup) :
  probe_stage env wait spec task -> probe_stage env wait spec' task' ->
  spec = spec' /\ task = task'.
Proof.
  intros [cpus cores nodes tmp t H1 H2 H3 H4 H5] [cpus' cores' nodes' tmp' t' H1' H2' H3' H4' H5'].
  assert (cpus' = cpus) as -> by congruence.
  assert (cores' = cores) as -> by congruence.
  assert (nodes' = nodes) as -> by congruence.
  assert (tmp' = tmp) as -> by congruence.
  split; congruence.
Qed.

Lemma probe_stage_no_raise (env : Platform) (wait : Z) (spec : ProbeSpec)
    (task : Cgroup) (e : BaseException) :
  probe_stage env wait spec task -> platform_raises env wait e -> False.
Proof.
  intros [cpus cores nodes tmp t H1 H2 H3 H4 H5] Hr.
  destruct Hr as [G1|c G1 G2|c c' G1 G2 G3|c c' n G1 G2 G3 G4|c c' n t' G1 G2 G3 G4 G5];
    congruence.
Qed.

(** The run of the check after the probe stage, for every placement
    result. *)
Lemma check_run_exact (env : Platform) (wait : Z) (spec : ProbeSpec) (task : Cgroup) :
  let my := runexecutor_cgroups env in
  let four := [CPUACCT; CPUSET; MEMORY; FREEZER] in
  required_present my = true ->
  probe_stage env wait spec task ->
  check_cgroup_availability env wait =
    (EvExecuteRun spec
       :: (warning_for my task <$> List.filter (misplaced my task) (visited my task four)),
     match first_missing my task four with
     | Some k => Raised (KeyError k)
     | None => if existsb (misplaced my task) four
               then Raised (SystemExit 1) else Returned tt
     end).
Proof.
  cbv zeta. intros Hreq Hstage.
  rewrite (check_after_probe env wait spec task Hreq Hstage), comparison_loop_exact.
  cbn [trace outcome fst snd orb].
  destruct (first_missing _ _ _); [reflexivity|].
  destruct (existsb _ _); reflexivity.
Qed.

(** X1.  With the required subsystems present and the probe stage going
    through, the check ends in exactly one of three ways: it returns, when
    every subsystem of the own snapshot has a path and none is misplaced; it
    exits with status 1, when every one has a path and one is misplaced; it
    raises KeyError for the first subsystem of the own snapshot without a
    path, when there is one. The deviations recorded are the misplaced
    subsystems that the loop visited. *)
Theorem check_ends_in_three_ways (env : Platform) (wait : Z) (spec : ProbeSpec)
    (task : Cgroup) :
  let my := runexecutor_cgroups env in
  let r := check_cgroup_availability env wait in
  required_present my = true ->
  probe_stage env wait spec task ->
  (outcome r = Returned tt <->
     covers task my /\ forall s, misplaced my task s = false)
  /\ (outcome r = Raised (SystemExit 1) <->
        covers task my /\ exists s, misplaced my task s = true)
  /\ (forall k, outcome r = Raised (KeyError k) <->
        first_missing my task [CPUACCT; CPUSET; MEMORY; FREEZER] = Some k)
  /\ ((exists k, outcome r = Raised (KeyError k)) <-> ~ covers task my)
  /\ deviations (trace r) =
       List.filter (misplaced my task)
         (visited my task [CPUACCT; CPUSET; MEMORY; FREEZER]).
Proof.
  intros my r Hreq Hstage. subst r.
  rewrite (check_run_exact env wait spec task Hreq Hstage).
  fold my. cbn [trace outcome fst snd].
  rewrite deviations_run, deviations_warnings.
  rewrite (covers_first_missing my task).
  destruct (first_missing my task [CPUACCT; CPUSET; MEMORY; FREEZER]) as [k0|] eqn:Hfm.
  - split; [|split; [|split; [|split]]].
    + split; [discriminate | intros [H _]; discriminate H].
    + split; [discriminate | intros [H _]; discriminate H].
    + intros k. split; intros [= ->]; reflexivity.
    + split; [discriminate | intros _; exists k0; reflexivity].
    + reflexivity.
  - destruct (existsb (misplaced my task) [CPUACCT; CPUSET; MEMORY; FREEZER]) eqn:Hm.
    + apply existsb_misplaced in Hm. split; [|split; [|split; [|split]]].
      * split; [discriminate|]. intros [_ H]. destruct Hm as [s Hs].
        rewrite H in Hs. discriminate Hs.
      * split; [auto | reflexivity].
      * intros k. split; discriminate.
      * split; [intros [k H]; discriminate H | intros H; exfalso; apply H; reflexivity].
      * reflexivity.
    + split; [|split; [|split; [|split]]].
      * split; [|reflexivity]. intros _. split; [reflexivity|].
        intros s. destruct (misplaced my task s) eqn:Hs; [|reflexivity].
        rewrite <- Hm. symmetry. apply existsb_misplaced. eauto.
      * split; [discriminate|]. intros [_ H]. apply existsb_misplaced in H. congruence.
      * intros k. split; discriminate.
      * split; [intros [k H]; discriminate H | intros H; exfalso; apply H; reflexivity].
      * reflexivity.
Qed.

Lemma misplaced_false_placed (my task : Cgroup) (s : Subsystem) (own : string) :
  misplaced my task s = false -> my !! s = Some own -> is_Some (task !! s) ->
  exists actual,
    task !! s = Some actual
    /\ PyStr.startswith actual (PyStr.path_join own "benchmark_") = true.
Proof.
  intros Hm Hmy [actual Htask]. exists actual. split; [exact Htask|].
  rewrite (misplaced_found _ _ _ _ _ Hmy Htask) in Hm.
  apply negb_false_iff in Hm. exact Hm.
Qed.

(** X2.  Whatever the platform does: when the check returns, the three
    required subsystems are in the own snapshot, the probe stage went
    through with exactly one call of the executor and no warning, and every
    subsystem of the own snapshot, the freezer included when it is there,
    has a placement path that starts with the own path joined with
    benchmark_. *)
Theorem check_returns_only_when_placed (env : Platform) (wait : Z) :
  let my := runexecutor_cgroups env in
  let r := check_cgroup_availability env wait in
  outcome r = Returned tt ->
  is_Some (my !! CPUACCT) /\ is_Some (my !! CPUSET) /\ is_Some (my !! MEMORY)
  /\ exists spec task,
       probe_stage env wait spec task
       /\ trace r = [EvExecuteRun spec]
       /\ forall s own,
            my !! s = Some own ->
            exists actual,
              task !! s = Some actual
              /\ PyStr.startswith actual (PyStr.path_join own "benchmark_") = true.
Proof.
  intros my r. subst r.
  destruct (check_cases env wait) as [Hreq|e Hreq|c e Hreq|c c' e Hreq|c c' n e Hreq
                                      |c c' n t e Hreq|spec task Hreq Hstage];
    try (cbn [outcome snd]; discriminate).
  cbn [outcome trace fst snd]. fold my. intros Hout.
  destruct (first_missing my task [CPUACCT; CPUSET; MEMORY; FREEZER]) eqn:Hfm;
    [discriminate|].
  destruct (existsb (misplaced my task) [CPUACCT; CPUSET; MEMORY; FREEZER]) eqn:Hm;
    [discriminate|].
  apply covers_first_missing in Hfm as Hcov.
  unfold required_present in Hreq. fold my in Hreq.
  apply andb_true_iff in Hreq as [Hreq Hmem]. apply andb_true_iff in Hreq as [Hacct Hset].
  apply contains_spec in Hacct, Hset, Hmem.
  do 3 (split; [assumption|]).
  exists spec, task. split; [exact Hstage | split].
  - rewrite (visited_all _ _ _ Hfm).
    apply filter_nil_existsb in Hm. rewrite Hm. reflexivity.
  - intros s own Hmy. apply (misplaced_false_placed my task s own); [|exact Hmy|].
    + destruct (misplaced my task s) eqn:Hs; [|reflexivity].
      rewrite <- Hm. symmetry. apply existsb_misplaced. eauto.
    + apply Hcov, contains_spec. eauto.
Qed.

(** X3.  Whatever the platform does, a warning is never a false alarm: it is
    logged only after the probe stage went through, for a subsystem of the
    own snapshot, with the path of the subsystem in the placement result and
    the own path as its arguments, and that placement path does not start
    with the own path joined with benchmark_. *)
Theorem warning_only_for_misplaced (env : Platform) (wait : Z)
    (actual own : string) (s : Subsystem) :
  EvWarning actual s own ∈ trace (check_cgroup_availability env wait) ->
  runexecutor_cgroups env !! s = Some own
  /\ PyStr.startswith actual (PyStr.path_join own "benchmark_") = false
  /\ exists spec task, probe_stage env wait spec task /\ task !! s = Some actual.
Proof.
  destruct (check_cases env wait) as [Hreq|e Hreq|c e Hreq|c c' e Hreq|c c' n e Hreq H1 H2 H3 H4
                                      |c c' n t e Hreq H1 H2 H3 H4 H5|spec task Hreq Hstage];
    cbn [trace fst]; intros Hin;
    try (inversion Hin; fail);
    try (apply list_elem_of_singleton in Hin; discriminate Hin).
  apply elem_of_cons in Hin as [Hin|Hin]; [discriminate Hin|].
  apply list_elem_of_fmap in Hin as (s' & Hw & Hs').
  apply list_elem_of_In, filter_In in Hs' as [_ Hmis].
  apply misplaced_spec in Hmis as (own' & actual' & Hmy & Htask & Hexp).
  rewrite (warning_for_found _ _ _ _ _ Hmy Htask) in Hw.
  injection Hw as -> -> ->. eauto 10.
Qed.

(** X4.  Whatever the platform does, the events of a check are none at all,
    or one call of the executor followed by warnings only: the executor is
    called at most once, and no warning is logged before or without the
    probe. The deviations are recorded in the order CPUACCT, CPUSET, MEMORY,
    FREEZER, each subsystem at most once. *)
Theorem check_events_are_probe_then_warnings (env : Platform) (wait : Z) :
  let r := check_cgroup_availability env wait in
  (trace r = []
   \/ exists spec ws, trace r = EvExecuteRun spec :: ws /\ Forall is_warning ws)
  /\ deviations (trace r) `sublist_of` [CPUACCT; CPUSET; MEMORY; FREEZER].
Proof.
  cbv zeta.
  destruct (check_cases env wait) as [Hreq|e Hreq|c e Hreq|c c' e Hreq|c c' n e Hreq
                                      |c c' n t e Hreq|spec task Hreq Hstage];
    cbn [trace fst];
    try (split; [left; reflexivity | apply sublist_nil_l]);
    try (split; [right; eexists _, []; split; [reflexivity | constructor]
                | apply sublist_nil_l]).
  split.
  - right. eexists _, _. split; [reflexivity|].
    apply Forall_fmap, Forall_forall. intros s _. unfold is_warning, warning_for.
    cbn. eauto.
  - rewrite deviations_run, deviations_warnings. apply visited_sublist.
Qed.

(** X5.  An exception of a platform call passes through the check unchanged:
    when one of the five calls of the probe stage raises, the check raises
    that exception, nothing is logged, and the executor was called once if
    the call that raised is the executor or the placement extractor, and not
    at all if it is one of the calls before. *)
Theorem platform_exception_passes_through (env : Platform) (wait : Z)
    (e : BaseException) :
  let r := check_cgroup_availability env wait in
  required_present (runexecutor_cgroups env) = true ->
  platform_raises env wait e ->
  outcome r = Raised e
  /\ deviations (trace r) = []
  /\ (length (executor_calls (trace r)) <= 1)%nat.
Proof.
  cbv zeta. intros Hreq Hraises.
  destruct (check_cases env wait) as [Hreq'|e' Hreq' G1|c e' Hreq' G1 G2|c c' e' Hreq' G1 G2 G3
                                      |c c' n e' Hreq' G1 G2 G3 G4
                                      |c c' n t e' Hreq' G1 G2 G3 G4 G5|spec task Hreq' Hstage].
  - congruence.
  - assert (e' = e) as ->; [|repeat split; cbn; auto].
    destruct Hraises; congruence.
  - assert (e' = e) as ->; [|repeat split; cbn; auto].
    destruct Hraises; congruence.
  - assert (e' = e) as ->; [|repeat split; cbn; auto].
    destruct Hraises; congruence.
  - assert (e' = e) as ->; [|repeat split; cbn; auto].
    destruct Hraises; congruence.
  - assert (e' = e) as ->; [|repeat split; cbn; auto].
    destruct Hraises; congruence.
  - exfalso. exact (probe_stage_no_raise env wait spec task e Hstage Hraises).
Qed.

(** ** What the comparison reads *)

Lemma check_subsystem_agree (my task1 task2 : Cgroup) (s : Subsystem) (fail : bool) :
  (contains my s = true -> task1 !! s = task2 !! s) ->
  check_subsystem my task1 s fail = check_subsystem my task2 s fail.
Proof.
  intros H. unfold check_subsystem.
  destruct (contains my s); [|reflexivity].
  unfold getitem. rewrite (H eq_refl). reflexivity.
Qed.

Lemma comparison_loop_agree (my task1 task2 : Cgroup) (xs : list Subsystem) (fail : bool) :
  (forall s, contains my s = true -> task1 !! s = task2 !! s) ->
  for_each xs (check_subsystem my task1) fail = for_each xs (check_subsystem my task2) fail.
Proof.
  intros H. revert fail. induction xs as [|x xs IH]; intros fail; [reflexivity|].
  cbn [for_each]. rewrite (check_subsystem_agree my task1 task2 x fail (H x)).
  destruct (check_subsystem my task2 x fail) as [t [b|e]]; [|reflexivity].
  rewrite !bind_returned, IH. reflexivity.
Qed.

(** X7.  The check reads the placement result only at the subsystems of the
    own snapshot: two placement results that agree on them give the same
    run. In particular, without the freezer in the own snapshot, the freezer
    entry of the placement result, present or not, changes nothing. *)
Theorem check_reads_only_own_subsystems (env : Platform) (wait : Z)
    (task1 task2 : Cgroup) :
  (forall s, contains (runexecutor_cgroups env) s = true -> task1 !! s = task2 !! s) ->
  check_cgroup_availability (with_placement env task1) wait
  = check_cgroup_availability (with_placement env task2) wait.
Proof.
  intros Hagree. unfold check_cgroup_availability.
  cbn [with_placement runexecutor_cgroups get_value parse_int_list
       read_allowed_memory_banks tmp_name find_my_cgroups].
  destruct (negb _); [reflexivity|]. rewrite !bind_mret.
  destruct (get_value env (runexecutor_cgroups env) CPUSET "cpus") as [cpus|e];
    [|reflexivity].
  rewrite !bind_call_returned.
  destruct (parse_int_list env cpus) as [cores|e]; [|reflexivity].
  rewrite !bind_call_returned.
  destruct (read_allowed_memory_banks env (runexecutor_cgroups env)) as [nodes|e];
    [|reflexivity].
  rewrite !bind_call_returned.
  unfold execute_run. cbn [with_placement probe_executor].
  rewrite !bind_emit, !trace_call, !outcome_call.
  destruct (probe_executor env _) as [tmp|e]; [|reflexivity].
  rewrite !bind_returned. unfold call. rewrite ?bind_returned.
  rewrite (comparison_loop_agree _ task1 task2 _ _ Hagree). reflexivity.
Qed.

(** ** The placement test and the own path *)

Lemma length_append (a b : string) :
  String.length (a +:+ b) = (String.length a + String.length b)%nat.
Proof.
  induction a as [|c a IH]; [reflexivity|].
  rewrite append_cons. cbn [String.length]. rewrite IH. reflexivity.
Qed.

Lemma append_assoc (a b c : string) : (a +:+ b) +:+ c = a +:+ (b +:+ c).
Proof.
  induction a as [|x a IH]; [reflexivity|].
  rewrite !append_cons, IH. reflexivity.
Qed.

Lemma path_join_extends (own : string) :
  exists sep,
    PyStr.path_join own "benchmark_" = own +:+ sep
    /\ (10 <= String.length sep)%nat.
Proof.
  rewrite path_join_benchmark.
  destruct (negb (PyStr.truthy own) || PyStr.endswith_char own "/");
    eexists; (split; [reflexivity | cbn; repeat constructor]).
Qed.

(** X8.  A placement path that passes the test lies below the own path as a
    string, and is longer than it by the ten characters of benchmark_ at
    least; so the own path itself does not pass. *)
Theorem passing_path_extends_own_path (own actual : string) :
  in_expected_subcgroup own actual = true ->
  PyStr.startswith actual own = true
  /\ (String.length own + 10 <= String.length actual)%nat
  /\ actual <> own.
Proof.
  intros H. apply in_expected_subcgroup_spec in H as [rest ->].
  destruct (path_join_extends own) as (sep & -> & Hsep).
  rewrite append_assoc. split; [apply startswith_append | split].
  - rewrite !length_append. apply Nat.le_trans with (String.length own + String.length sep)%nat.
    + apply Nat.add_le_mono_l. exact Hsep.
    + apply Nat.add_le_mono_l, Nat.le_add_r.
  - intros Heq. apply (f_equal String.length) in Heq.
    rewrite !length_append in Heq.
    assert (String.length sep + String.length rest = 0)%nat as H0.
    { apply (Nat.add_cancel_l _ _ (String.length own)). rewrite Nat.add_0_r. exact Heq. }
    apply Nat.eq_add_0 in H0 as [H0 _]. rewrite H0 in Hsep. inversion Hsep.
Qed.

Lemma startswith_length (s p : string) :
  PyStr.startswith s p = true -> (String.length p <= String.length s)%nat.
Proof.
  intros H. apply startswith_inv in H as [r ->].
  rewrite length_append. apply Nat.le_add_r.
Qed.

Lemma own_path_not_expected (own : string) : in_expected_subcgroup own own = false.
Proof.
  destruct (in_expected_subcgroup own own) eqn:H; [|reflexivity].
  apply startswith_length in H.
  destruct (path_join_extends own) as (sep & Hjoin & Hsep).
  rewrite Hjoin, length_append in H. exfalso.
  apply (Nat.lt_irrefl (String.length own)).
  apply Nat.lt_le_trans with (String.length own + String.length sep)%nat; [|exact H].
  apply Nat.lt_add_pos_r. apply Nat.lt_le_trans with 10%nat; [|exact Hsep].
  repeat constructor.
Qed.

Lemma own_path_is_misplaced (my : Cgroup) (s : Subsystem) :
  misplaced my my s = contains my s.
Proof.
  unfold misplaced, contains. destruct (my !! s) as [own|] eqn:Hmy; [|reflexivity].
  rewrite own_path_not_expected. reflexivity.
Qed.

(** X9.  A probe that stayed in the cgroups of the caller is reported for
    every subsystem of the own snapshot: when the placement result is the
    own snapshot itself, the check logs a deviation for each subsystem of
    the snapshot and exits with status 1. *)
Theorem probe_left_in_own_cgroups_fails (env : Platform) (wait : Z) (spec : ProbeSpec) :
  let my := runexecutor_cgroups env in
  let r := check_cgroup_availability env wait in
  required_present my = true ->
  probe_stage env wait spec my ->
  outcome r = Raised (SystemExit 1)
  /\ deviations (trace r)
     = List.filter (contains my) [CPUACCT; CPUSET; MEMORY; FREEZER].
Proof.
  intros my r Hreq Hstage. subst r.
  assert (covers my my) as Hcov by (intros s Hs; apply contains_spec; exact Hs).
  rewrite (check_full_comparison env wait spec my Hreq Hstage Hcov). fold my.
  cbn [outcome trace fst snd]. rewrite deviations_run, deviations_warnings.
  rewrite (List.filter_ext _ _ (own_path_is_misplaced my)).
  split; [|reflexivity].
  assert (existsb (misplaced my my) [CPUACCT; CPUSET; MEMORY; FREEZER] = true) as ->;
    [|reflexivity].
  apply existsb_misplaced. exists CPUACCT. rewrite own_path_is_misplaced.
  unfold required_present in Hreq. fold my in Hreq.
  apply andb_true_iff in Hreq as [Hreq _]. apply andb_true_iff in Hreq as [Hreq _].
  exact Hreq.
Qed.

(** ** The lines that the filter keeps *)

Lemma list_ascii_of_append (a b : string) :
  list_ascii_of_string (a +:+ b) = list_ascii_of_string a ++ list_ascii_of_string b.
Proof.
  induction a as [|c a IH]; [reflexivity|].
  rewrite append_cons. cbn [list_ascii_of_string]. rewrite IH. reflexivity.
Qed.

Lemma lstrip_whitespace (s : string) : whitespace s -> PyStr.lstrip s = EmptyString.
Proof.
  unfold whitespace. induction s as [|c s IH]; [reflexivity|].
  cbn [list_ascii_of_string PyStr.lstrip]. intros H. inversion H as [|? ? Hc Hs]; subst.
  rewrite Hc. exact (IH Hs).
Qed.

(** A line is blank for the filter exactly when it consists of whitespace. *)
Lemma strip_empty_iff (s : string) : PyStr.strip s = EmptyString <-> whitespace s.
Proof.
  split.
  - intros H. destruct (strip_spec s) as [(pre & post & Hs & Wpre & Wpost) _].
    rewrite H, append_nil in Hs. rewrite Hs. unfold whitespace in *.
    rewrite list_ascii_of_append. apply Forall_app. auto.
  - intros H. unfold PyStr.strip. rewrite (lstrip_whitespace s H). reflexivity.
Qed.

Lemma rstrip_fixed (s : string) :
  (forall c, PyStr.endswith_char s c = true -> PyStr.isspace c = false) ->
  PyStr.rstrip s = s.
Proof.
  induction s as [|a s IH]; [reflexivity|]. intros H.
  cbn [PyStr.rstrip]. destruct s as [|b s].
  - cbn [PyStr.rstrip]. rewrite (H a); [reflexivity|].
    cbn. apply Ascii.eqb_refl.
  - rewrite IH; [reflexivity|]. intros c Hc. apply H. exact Hc.
Qed.

(** A string without whitespace at its ends is left as it is. *)
Lemma strip_fixed (s : string) :
  (forall c r, s = String c r -> PyStr.isspace c = false) ->
  (forall c, PyStr.endswith_char s c = true -> PyStr.isspace c = false) ->
  PyStr.strip s = s.
Proof.
  intros Hhead Hlast. unfold PyStr.strip.
  assert (PyStr.lstrip s = s) as ->.
  { destruct s as [|c r]; [reflexivity|]. cbn [PyStr.lstrip].
    rewrite (Hhead c r eq_refl). reflexivity. }
  apply rstrip_fixed, Hlast.
Qed.

Lemma strip_idempotent (s : string) : PyStr.strip (PyStr.strip s) = PyStr.strip s.
Proof.
  destruct (strip_spec s) as (_ & Hhead & Hlast).
  apply strip_fixed; [|exact Hlast].
  intros c r H. exact (Hhead c r H).
Qed.

Lemma all_eq_false (ch : ascii) (s : string) :
  PyStr.all_eq ch s = false -> exists c, c ∈ list_ascii_of_string s /\ c <> ch.
Proof.
  induction s as [|a s IH]; cbn [PyStr.all_eq list_ascii_of_string]; [discriminate|].
  destruct (Ascii.eqb a ch) eqn:Ha; cbn [andb].
  - intros H. destruct (IH H) as (c & Hc & Hne). exists c. split; [right; exact Hc | exact Hne].
  - intros _. exists a. split; [left|]. apply Ascii.eqb_neq. exact Ha.
Qed.

Lemma read_lines_filter_map (wait : Z) (tmp : list string) :
  read_lines wait tmp = List.filter (keep_line wait) (PyStr.strip <$> tmp).
Proof.
  induction tmp as [|line tmp IH]; [reflexivity|].
  rewrite fmap_cons. cbn [read_lines List.filter].
  destruct (keep_line wait (PyStr.strip line)); rewrite IH; reflexivity.
Qed.

Lemma read_lines_app (wait : Z) (tmp1 tmp2 : list string) :
  read_lines wait (tmp1 ++ tmp2) = read_lines wait tmp1 ++ read_lines wait tmp2.
Proof.
  rewrite !read_lines_filter_map, fmap_app. apply List.filter_app.
Qed.

(** X10.  What holds of every line that the filter hands to the placement
    extractor: it is the stripped form of a line of the output, it has no
    whitespace at its ends, it is not empty, it is not the echoed command,
    and it has a character that is not a dash. *)
Theorem kept_lines_are_clean (wait : Z) (tmp : list string) (line : string) :
  line ∈ read_lines wait tmp ->
  (exists raw, raw ∈ tmp /\ line = PyStr.strip raw)
  /\ PyStr.strip line = line
  /\ line <> EmptyString
  /\ line <> "sh -c 'sleep " +:+ PyStr.str_of_int wait +:+ "; cat /proc/self/cgroup'"
  /\ exists c, c ∈ list_ascii_of_string line /\ c <> "-"%char.
Proof.
  rewrite read_lines_filter_map, list_elem_of_In, filter_In, <- list_elem_of_In.
  intros [Hin Hkeep]. apply list_elem_of_fmap in Hin as (raw & -> & Hraw).
  split; [eauto | split; [apply strip_idempotent|]].
  assert (keep_line wait (PyStr.strip raw) <> false) as Hk by (rewrite Hkeep; discriminate).
  rewrite keep_line_false in Hk.
  split; [tauto | split; [tauto|]].
  destruct (PyStr.all_eq "-" (PyStr.strip raw)) eqn:Hall.
  - exfalso. apply Hk. right; right. apply all_eq_spec. exact Hall.
  - apply all_eq_false. exact Hall.
Qed.

(** X11.  Filtering is idempotent and goes line by line: filtering the kept
    lines again keeps them all, the lines kept from two outputs one after
    the other are the lines kept from each, and a line of whitespace only is
    dropped wherever it stands. *)
Theorem read_lines_idempotent_and_local (wait : Z) (tmp1 tmp2 : list string)
    (blank : string) :
  read_lines wait (read_lines wait tmp1) = read_lines wait tmp1
  /\ read_lines wait (tmp1 ++ tmp2) = read_lines wait tmp1 ++ read_lines wait tmp2
  /\ (whitespace blank ->
      read_lines wait (tmp1 ++ blank :: tmp2) = read_lines wait (tmp1 ++ tmp2)).
Proof.
  split; [|split].
  - induction tmp1 as [|line tmp IH]; [reflexivity|].
    cbn [read_lines]. destruct (keep_line wait (PyStr.strip line)) eqn:Hk; [|exact IH].
    cbn [read_lines]. rewrite strip_idempotent, Hk, IH. reflexivity.
  - apply read_lines_app.
  - intros Hblank. rewrite !read_lines_app. f_equal.
    cbn [read_lines]. apply strip_empty_iff in Hblank. rewrite Hblank. reflexivity.
Qed.

(** ** Integers on the command line *)

Lemma int_digits_last (c : ascii) (acc k : Z) :
  PyStr.digit_value c = Some k ->
  PyStr.int_digits (String c EmptyString) acc = Some (10 * acc + k).
Proof. intros Hk. cbn [PyStr.int_digits]. rewrite Hk. reflexivity. Qed.

Lemma int_digits_step (c c' : ascii) (r : string) (acc k : Z) :
  PyStr.digit_value c = Some k -> is_Some (PyStr.digit_value c') ->
  PyStr.int_digits (String c (String c' r)) acc
  = PyStr.int_digits (String c' r) (10 * acc + k).
Proof.
  intros Hk [k' Hk']. cbn [PyStr.int_digits]. rewrite Hk.
  destruct c' as [[|] [|] [|] [|] [|] [|] [|] [|]];
    try reflexivity; vm_compute in Hk'; discriminate Hk'.
Qed.

Lemma string_of_uint_head (d : Decimal.uint) :
  d <> Decimal.Nil ->
  exists c r k,
    NilEmpty.string_of_uint d = String c r /\ PyStr.digit_value c = Some k.
Proof.
  destruct d; [congruence|..]; intros _; cbn [NilEmpty.string_of_uint];
    eexists _, _, _; (split; [reflexivity | vm_compute; reflexivity]).
Qed.

Lemma string_of_uint_digits (d : Decimal.uint) (c : ascii) :
  c ∈ list_ascii_of_string (NilEmpty.string_of_uint d) -> is_Some (PyStr.digit_value c).
Proof.
  induction d as [|d IH|d IH|d IH|d IH|d IH|d IH|d IH|d IH|d IH|d IH];
    cbn [NilEmpty.string_of_uint list_ascii_of_string]; intros H;
    [inversion H|..];
    (apply elem_of_cons in H as [->|H]; [eexists; vm_compute; reflexivity | exact (IH H)]).
Qed.

Ltac int_digits_case d IH acc :=
  destruct (Decimal.uint_eq_dec d Decimal.Nil) as [->|Hd];
  [ reflexivity
  | destruct (string_of_uint_head d Hd) as (c' & r' & k' & Hs & Hk');
    cbn [NilEmpty.string_of_uint uint_value]; rewrite Hs;
    erewrite int_digits_step; [| vm_compute; reflexivity | eauto];
    rewrite <- Hs; apply IH; exact Hd ].

(** [int] reads a decimal numeral as its value. *)
Lemma int_digits_uint (d : Decimal.uint) (acc : Z) :
  d <> Decimal.Nil ->
  PyStr.int_digits (NilEmpty.string_of_uint d) acc = Some (uint_value d acc).
Proof.
  revert acc.
  induction d as [|d IH|d IH|d IH|d IH|d IH|d IH|d IH|d IH|d IH|d IH];
    intros acc Hnil; [congruence|..]; int_digits_case d IH acc.
Qed.

Lemma uint_value_acc (d : Decimal.uint) (a : positive) :
  uint_value d (Z.pos a) = Z.pos (Pos.of_uint_acc d a).
Proof.
  revert a.
  induction d as [|d IH|d IH|d IH|d IH|d IH|d IH|d IH|d IH|d IH|d IH];
    intros a; [reflexivity|..]; cbn [uint_value Pos.of_uint_acc];
    rewrite <- IH; f_equal; lia.
Qed.

Lemma uint_value_0 (d : Decimal.uint) : uint_value d 0 = Z.of_uint d.
Proof.
  unfold Z.of_uint.
  induction d as [|d IH|d IH|d IH|d IH|d IH|d IH|d IH|d IH|d IH|d IH];
    [reflexivity | exact IH |..]; cbn [uint_value Pos.of_uint];
    change (10 * 0 + ?k) with k; rewrite uint_value_acc; reflexivity.
Qed.

Lemma digit_not_int_space (c : ascii) :
  is_Some (PyStr.digit_value c) -> PyStr.int_isspace c = false.
Proof.
  destruct c as [[|] [|] [|] [|] [|] [|] [|] [|]];
    try reflexivity; intros [k Hk]; vm_compute in Hk; discriminate Hk.
Qed.

Lemma int_rstrip_no_space (s : string) :
  (forall c, c ∈ list_ascii_of_string s -> PyStr.int_isspace c = false) ->
  PyStr.int_rstrip s = s.
Proof.
  induction s as [|a s IH]; [reflexivity|]. intros H.
  cbn [PyStr.int_rstrip]. rewrite IH.
  - destruct s; [|reflexivity]. rewrite (H a); [reflexivity | left].
  - intros c Hc. apply H. right. exact Hc.
Qed.

(** [int] skips nothing at the ends of a string without whitespace. *)
Lemma int_strip_no_space (s : string) :
  (forall c, c ∈ list_ascii_of_string s -> PyStr.int_isspace c = false) ->
  PyStr.int_rstrip (PyStr.int_lstrip s) = s.
Proof.
  intros H. assert (PyStr.int_lstrip s = s) as ->.
  { destruct s as [|a s]; [reflexivity|]. cbn [PyStr.int_lstrip].
    rewrite (H a); [reflexivity | left]. }
  apply int_rstrip_no_space, H.
Qed.

Lemma digit_count_length (s : string) : (PyStr.digit_count s <= String.length s)%nat.
Proof.
  induction s as [|c s IH]; [reflexivity|]. cbn [PyStr.digit_count String.length].
  destruct (PyStr.digit_value c); lia.
Qed.

(** [int(str(n))] is [n], for every integer [n] whose decimal is within the
    limit of the conversion. *)
Lemma int_of_str_of_int (n : Z) :
  Z.of_nat (String.length (PyStr.str_of_int n)) <= 4300 ->
  PyStr.int_of_str (PyStr.str_of_int n) = Some n.
Proof.
  intros Hlen. unfold PyStr.int_of_str.
  assert ((PyStr.max_str_digits <? Z.of_nat (PyStr.digit_count (PyStr.str_of_int n)))
          = false) as ->.
  { apply Z.ltb_ge. unfold PyStr.max_str_digits.
    pose proof (digit_count_length (PyStr.str_of_int n)). lia. }
  clear Hlen. unfold PyStr.str_of_int. destruct n as [|p|p]; [reflexivity|..];
    pose proof (Unsigned.to_uint_nonnil p) as Hnil;
    pose proof (DecimalZ.of_to (Z.pos p)) as Hval; cbn in Hval;
    cbn [Z.to_int NilZero.string_of_int].
  - assert (NilZero.string_of_uint (Pos.to_uint p) = NilEmpty.string_of_uint (Pos.to_uint p))
      as -> by (destruct (Pos.to_uint p); [congruence | reflexivity..]).
    rewrite int_strip_no_space
      by (intros c Hc; apply digit_not_int_space, (string_of_uint_digits _ _ Hc)).
    pose proof (int_digits_uint (Pos.to_uint p) 0 Hnil) as Hd.
    rewrite uint_value_0, Hval in Hd.
    destruct (Pos.to_uint p); [congruence|..]; exact Hd.
  - assert (NilZero.string_of_uint (Pos.to_uint p) = NilEmpty.string_of_uint (Pos.to_uint p))
      as -> by (destruct (Pos.to_uint p); [congruence | reflexivity..]).
    rewrite int_strip_no_space.
    + rewrite (int_digits_uint (Pos.to_uint p) 0 Hnil), uint_value_0, Hval. reflexivity.
    + intros c Hc. cbn [list_ascii_of_string] in Hc.
      apply elem_of_cons in Hc as [->|Hc]; [reflexivity|].
      apply digit_not_int_space, (string_of_uint_digits _ _ Hc).
Qed.

(** A string with more digits than the limit is no integer for [int]. *)
Lemma int_of_str_over_limit (s : string) :
  4300 < Z.of_nat (PyStr.digit_count s) -> PyStr.int_of_str s = None.
Proof.
  intros H. unfold PyStr.int_of_str, PyStr.max_str_digits.
  apply Z.ltb_lt in H. rewrite H. reflexivity.
Qed.

Lemma str_of_int_inj (n m : Z) : PyStr.str_of_int n = PyStr.str_of_int m -> n = m.
Proof.
  intros H. pose proof (str_of_int_denotes n) as Hn.
  rewrite H, str_of_int_denotes in Hn. congruence.
Qed.

(** The decimal of an integer starts with a digit, or with [-] and has
    digits only after it. *)
Lemma str_of_int_shape (n : Z) :
  exists c r, PyStr.str_of_int n = String c r
    /\ (is_Some (PyStr.digit_value c)
        \/ (c = "-"%char /\ PyStr.truthy r = true /\ Argparse.all_digits r = true)).
Proof.
  assert (Hall : forall d, Argparse.all_digits (NilEmpty.string_of_uint d) = true).
  { induction d; cbn [NilEmpty.string_of_uint Argparse.all_digits]; [reflexivity|..];
      rewrite IHd, andb_true_r; apply bool_decide_eq_true; eexists; vm_compute; reflexivity. }
  unfold PyStr.str_of_int. destruct n as [|p|p].
  - eexists _, _. split; [reflexivity|]. left. eexists. vm_compute. reflexivity.
  - cbn [Z.to_int NilZero.string_of_int].
    pose proof (Unsigned.to_uint_nonnil p) as Hnil.
    destruct (string_of_uint_head _ Hnil) as (c & r & k & Hs & Hk).
    exists c, r. split; [|left; eauto].
    rewrite <- Hs. destruct (Pos.to_uint p); [congruence | reflexivity..].
  - cbn [Z.to_int NilZero.string_of_int].
    pose proof (Unsigned.to_uint_nonnil p) as Hnil.
    eexists _, _. split; [reflexivity|]. right. split; [reflexivity|].
    assert (NilZero.string_of_uint (Pos.to_uint p) = NilEmpty.string_of_uint (Pos.to_uint p))
      as -> by (destruct (Pos.to_uint p); [congruence | reflexivity..]).
    split; [|apply Hall].
    destruct (string_of_uint_head _ Hnil) as (c & r & k & -> & Hk). reflexivity.
Qed.

Lemma str_of_int_argument_like (n : Z) : Argparse.argument_like (PyStr.str_of_int n) = true.
Proof.
  destruct (str_of_int_shape n) as (c & r & -> & [[k Hk]|(-> & Ht & Hd)]).
  - destruct c as [[|] [|] [|] [|] [|] [|] [|] [|]];
      try reflexivity; vm_compute in Hk; discriminate Hk.
  - cbn [Argparse.argument_like]. rewrite Ht, Hd. reflexivity.
Qed.

Lemma str_of_int_not_separator (n : Z) : PyStr.str_of_int n <> "--".
Proof.
  destruct (str_of_int_shape n) as (c & r & -> & [[k Hk]|(-> & Ht & Hd)]).
  - intros [= -> ->]. vm_compute in Hk. discriminate Hk.
  - intros [= ->]. vm_compute in Hd. discriminate Hd.
Qed.

Lemma substring_all (s : string) : String.substring 0 (String.length s) s = s.
Proof. induction s as [|c s IH]; [reflexivity|]. cbn. rewrite IH. reflexivity. Qed.

Lemma substring_after (p s : string) :
  String.substring (String.length p) (String.length s) (p +:+ s) = s.
Proof.
  induction p as [|c p IH]; [rewrite append_nil; apply substring_all|].
  rewrite append_cons. cbn [String.length String.substring]. exact IH.
Qed.

(** The value of [--wait=VALUE] is what follows the seven characters. *)
Lemma wait_value (v : string) :
  String.substring 7 (String.length ("--wait=" +:+ v) - 7) ("--wait=" +:+ v) = v.
Proof.
  rewrite length_append. change (String.length "--wait=") with 7%nat.
  replace (7 + String.length v - 7)%nat with (String.length v) by lia.
  apply (substring_after "--wait=").
Qed.

Lemma option_uses_wait_eq (v : string) (rest : list string) :
  v <> "--" ->
  Argparse.option_uses (("--wait=" +:+ v) :: rest)
  = cons (Argparse.UseWait v) <$> Argparse.option_uses rest.
Proof.
  intros Hv. cbn [Argparse.option_uses].
  rewrite wait_value, (startswith_append "--wait=" v).
  apply String.eqb_neq in Hv. rewrite Hv.
  rewrite !append_cons, append_nil. reflexivity.
Qed.

Lemma option_uses_wait (v : string) (rest : list string) :
  Argparse.argument_like v = true ->
  Argparse.option_uses ("--wait" :: v :: rest)
  = cons (Argparse.UseWait v) <$> Argparse.option_uses rest.
Proof. intros Hv. cbn [Argparse.option_uses]. rewrite Hv. reflexivity. Qed.


Lemma check_starts_no_thread (env : Platform) (wait : Z) :
  thread_starts (trace (check_cgroup_availability env wait)) = 0%nat.
Proof.
  destruct (check_cases env wait); cbn [trace fst]; try reflexivity.
  unfold thread_starts. cbn [List.filter].
  induction (List.filter (misplaced _ _) _) as [|s l IH]; [reflexivity | exact IH].
Qed.

Lemma check_calls_executor_once (env : Platform) (wait : Z) :
  (length (executor_calls (trace (check_cgroup_availability env wait))) <= 1)%nat.
Proof.
  destruct (executor_calls_of_check env wait) as [->|(c & c' & n & _ & _ & _ & ->)];
    cbn; lia.
Qed.

Lemma check_deviations_sublist (env : Platform) (wait : Z) :
  deviations (trace (check_cgroup_availability env wait))
    `sublist_of` [CPUACCT; CPUSET; MEMORY; FREEZER].
Proof.
  destruct (check_cases env wait); cbn [trace fst]; try apply sublist_nil_l.
  rewrite deviations_run, deviations_warnings. apply visited_sublist.
Qed.

Lemma append_inj_l (p a b : string) : p +:+ a = p +:+ b -> a = b.
Proof.
  induction p as [|c p IH]; rewrite ?append_nil, ?append_cons; [auto|].
  intros [= H]. exact (IH H).
Qed.

Lemma append_inj_r (a b s : string) : a +:+ s = b +:+ s -> a = b.
Proof.
  intros H. apply (f_equal list_ascii_of_string) in H.
  rewrite !list_ascii_of_append in H. apply app_inv_tail in H.
  rewrite <- (string_of_list_ascii_of_string a), <- (string_of_list_ascii_of_string b), H.
  reflexivity.
Qed.

Lemma echoed_command_inj (w w' : Z) : echoed_command w = echoed_command w' -> w = w'.
Proof.
  unfold echoed_command. intros H.
  apply append_inj_l, append_inj_r in H. apply str_of_int_inj, H.
Qed.

(** X12.  The decimal of an integer, as Python writes it, is accepted as the
    value of [--wait] in both spellings and parsed back to that integer, and
    [main] runs the check with it: negative values and zero included, there
    is no range check between the command line and the probe.  The bound on
    the length of the decimal is the interpreter's default limit on the
    conversion between integers and decimal strings. *)
Theorem wait_option_round_trip (env : Platform) (n : Z) (prog : string) :
  Z.of_nat (String.length (PyStr.str_of_int n)) <= 4300 ->
  PyStr.int_of_str (PyStr.str_of_int n) = Some n
  /\ parse_args env ["--wait=" +:+ PyStr.str_of_int n] = Returned (mkNamespace n false)
  /\ parse_args env ["--wait"; PyStr.str_of_int n] = Returned (mkNamespace n false)
  /\ main env (Some [prog; "--no-thread"; "--wait"; PyStr.str_of_int n])
       = check_cgroup_availability env n
  /\ main env (Some [prog; "--wait=" +:+ PyStr.str_of_int n])
       = check_cgroup_availability_in_thread env (mkNamespace n false).
Proof.
  intros Hlen. pose proof (int_of_str_of_int n Hlen) as Hint.
  assert (H1 : parse_args env ["--wait=" +:+ PyStr.str_of_int n]
               = Returned (mkNamespace n false)).
  { unfold parse_args. rewrite option_uses_wait_eq by apply str_of_int_not_separator.
    cbn [Argparse.option_uses fmap option_fmap option_map Argparse.take_actions].
    rewrite Hint. reflexivity. }
  assert (H3 : parse_args env ["--wait"; PyStr.str_of_int n]
               = Returned (mkNamespace n false)).
  { unfold parse_args. rewrite option_uses_wait by apply str_of_int_argument_like.
    cbn [Argparse.option_uses fmap option_fmap option_map Argparse.take_actions].
    rewrite Hint. reflexivity. }
  split; [exact Hint|]. split; [exact H1|]. split; [exact H3|]. split.
  - rewrite (main_dispatch _ _ (mkNamespace n true)); [reflexivity|].
    cbn [drop]. unfold parse_args.
    change (Argparse.option_uses ("--no-thread" :: ?r))
      with (cons Argparse.UseNoThread <$> Argparse.option_uses r).
    rewrite option_uses_wait by apply str_of_int_argument_like.
    cbn [Argparse.option_uses fmap option_fmap option_map Argparse.take_actions wait no_thread].
    rewrite Hint. reflexivity.
  - rewrite (main_dispatch _ _ (mkNamespace n false)); [reflexivity | exact H1].
Qed.


(** X14.  Whatever the command line and the platform, [main] starts at most
    one worker thread, calls the executor at most once, and records
    deviations in the order CPUACCT, CPUSET, MEMORY, FREEZER, each subsystem
    at most once; the number of threads is decided by [--no-thread] alone,
    and an exit of the argument parser ends [main] before anything is done. *)
Theorem main_runs_one_check_at_most (env : Platform) (argv : option (list string)) :
  let args := drop 1 (match argv with None => sys_argv env | Some a => a end) in
  let r := main env argv in
  (thread_starts (trace r) <= 1)%nat
  /\ (length (executor_calls (trace r)) <= 1)%nat
  /\ deviations (trace r) `sublist_of` [CPUACCT; CPUSET; MEMORY; FREEZER]
  /\ (forall opts, parse_args env args = Returned opts ->
        thread_starts (trace r) = if no_thread opts then 0%nat else 1%nat)
  /\ (forall e, parse_args env args = Raised e -> r = ([], Raised e)).
Proof.
  cbv zeta. unfold main.
  destruct (parse_args env (drop 1 _)) as [opts|e] eqn:Hparse.
  - rewrite bind_call_returned.
    assert (Hn : thread_starts (trace (if no_thread opts
                   then check_cgroup_availability env (wait opts)
                   else check_cgroup_availability_in_thread env opts))
                 = if no_thread opts then 0%nat else 1%nat).
    { destruct (no_thread opts); [apply check_starts_no_thread|].
      rewrite in_thread_spec. cbn [trace fst].
      change (EvThreadStart :: ?t ++ ?u) with ([EvThreadStart] ++ t ++ u).
      rewrite !thread_starts_app, thread_starts_in_thread. reflexivity. }
    split; [rewrite Hn; destruct (no_thread opts); lia|].
    split; [|split; [|split; [intros opts' [= <-]; exact Hn | discriminate]]].
    + destruct (no_thread opts); [apply check_calls_executor_once|].
      rewrite in_thread_spec. cbn [trace fst].
      change (EvThreadStart :: ?t ++ ?u) with ([EvThreadStart] ++ t ++ u).
      rewrite !executor_calls_app, executor_calls_in_thread. cbn [executor_calls omap app].
      rewrite app_nil_r. apply check_calls_executor_once.
    + destruct (no_thread opts); [apply check_deviations_sublist|].
      rewrite in_thread_spec. cbn [trace fst].
      change (EvThreadStart :: ?t ++ ?u) with ([EvThreadStart] ++ t ++ u).
      rewrite !deviations_app, deviations_in_thread. cbn. rewrite app_nil_r.
      apply check_deviations_sublist.
  - rewrite bind_call_raised. cbn.
    split; [lia|]. split; [lia|]. split; [apply sublist_nil_l|].
    split; [discriminate | intros e' [= <-]; reflexivity].
Qed.

(** X15.  The line that the filter takes for an echo of the command is the
    shell invocation of the very command handed to the executor, for the
    wait value of this run: the echo of the probe of another wait value is
    kept. *)
Theorem echo_filter_matches_probe_command (wait : Z) :
  echoed_command wait = "sh -c '" +:+ probe_command wait +:+ "'"
  /\ forall wait', keep_line wait (echoed_command wait') = true <-> wait' <> wait.
Proof.
  split.
  - unfold echoed_command, probe_command.
    rewrite !append_assoc. rewrite !append_cons, !append_nil. reflexivity.
  - intros wait'. unfold keep_line.
    assert (Ht : PyStr.truthy (echoed_command wait') = true)
      by (unfold echoed_command; rewrite append_cons; reflexivity).
    assert (Hd : PyStr.all_eq "-" (echoed_command wait') = false)
      by (unfold echoed_command; rewrite append_cons; reflexivity).
    rewrite Ht, Hd, andb_true_l, andb_true_r, negb_true_iff, String.eqb_neq.
    split; intros H Heq; apply H; [congruence | exact (echoed_command_inj _ _ Heq)].
Qed.

(** ** The further properties at sample inputs *)

Lemma check_ends_in_three_ways_witness :
  required_present own_abc = true
  /\ probe_stage (sample_platform own_abc placed_without_cpuset) 1 sample_spec
       placed_without_cpuset
  /\ outcome (check_cgroup_availability (sample_platform own_abc placed_without_cpuset) 1)
     = Raised (KeyError CPUSET)
  /\ deviations
       (trace (check_cgroup_availability (sample_platform own_abc placed_without_cpuset) 1))
     = [CPUACCT].
Proof.
  split; [exact own_abc_required | split; [apply sample_probe_stage|]].
  destruct (check_ends_in_three_ways (sample_platform own_abc placed_without_cpuset)
              1 sample_spec placed_without_cpuset own_abc_required
              (sample_probe_stage own_abc placed_without_cpuset))
    as (_ & _ & Hk & _ & Hd).
  split; [apply Hk; reflexivity | rewrite Hd; reflexivity].
Defined.

Lemma check_returns_only_when_placed_witness :
  outcome (check_cgroup_availability (sample_platform own_abc placed_in_benchmark) 1)
    = Returned tt
  /\ is_Some (own_abc !! CPUACCT) /\ is_Some (own_abc !! CPUSET)
  /\ is_Some (own_abc !! MEMORY)
  /\ exists spec task,
       probe_stage (sample_platform own_abc placed_in_benchmark) 1 spec task
       /\ trace (check_cgroup_availability (sample_platform own_abc placed_in_benchmark) 1)
          = [EvExecuteRun spec]
       /\ forall s own,
            own_abc !! s = Some own ->
            exists actual,
              task !! s = Some actual
              /\ PyStr.startswith actual (PyStr.path_join own "benchmark_") = true.
Proof.
  split; [reflexivity|].
  exact (check_returns_only_when_placed (sample_platform own_abc placed_in_benchmark)
           1 eq_refl).
Defined.

Lemma warning_only_for_misplaced_witness :
  EvWarning "/other/1" CPUACCT "/a"
    ∈ trace (check_cgroup_availability (sample_platform own_abc placed_elsewhere) 1)
  /\ own_abc !! CPUACCT = Some "/a"
  /\ PyStr.startswith "/other/1" (PyStr.path_join "/a" "benchmark_") = false
  /\ exists spec task,
       probe_stage (sample_platform own_abc placed_elsewhere) 1 spec task
       /\ task !! CPUACCT = Some "/other/1".
Proof.
  assert (EvWarning "/other/1" CPUACCT "/a"
            ∈ trace (check_cgroup_availability
                       (sample_platform own_abc placed_elsewhere) 1)) as Hin
    by (vm_compute; right; left).
  split; [exact Hin|].
  exact (warning_only_for_misplaced (sample_platform own_abc placed_elsewhere) 1
           "/other/1" "/a" CPUACCT Hin).
Defined.

Lemma platform_exception_passes_through_witness :
  required_present own_abc = true
  /\ platform_raises (failing_platform own_abc KeyboardInterrupt) 1 KeyboardInterrupt
  /\ outcome (check_cgroup_availability (failing_platform own_abc KeyboardInterrupt) 1)
     = Raised KeyboardInterrupt
  /\ deviations
       (trace (check_cgroup_availability (failing_platform own_abc KeyboardInterrupt) 1))
     = []
  /\ (length (executor_calls
        (trace (check_cgroup_availability (failing_platform own_abc KeyboardInterrupt) 1)))
      <= 1)%nat.
Proof.
  assert (platform_raises (failing_platform own_abc KeyboardInterrupt) 1 KeyboardInterrupt)
    as Hraises
    by exact (executor_raises (failing_platform own_abc KeyboardInterrupt) 1
                KeyboardInterrupt "0-1" [0; 1] [0] eq_refl eq_refl eq_refl eq_refl).
  split; [exact own_abc_required | split; [exact Hraises|]].
  exact (platform_exception_passes_through (failing_platform own_abc KeyboardInterrupt)
           1 KeyboardInterrupt own_abc_required Hraises).
Defined.

Lemma check_reads_only_own_subsystems_witness :
  (forall s, contains own_abc s = true ->
             placed_in_benchmark !! s = placed_with_freezer !! s)
  /\ check_cgroup_availability
       (with_placement (sample_platform own_abc placed_elsewhere) placed_in_benchmark) 1
     = check_cgroup_availability
         (with_placement (sample_platform own_abc placed_elsewhere) placed_with_freezer) 1.
Proof.
  assert (forall s, contains own_abc s = true ->
                    placed_in_benchmark !! s = placed_with_freezer !! s) as Hagree
    by (intros [] H; try reflexivity; vm_compute in H; discriminate H).
  split; [exact Hagree|].
  exact (check_reads_only_own_subsystems (sample_platform own_abc placed_elsewhere) 1
           placed_in_benchmark placed_with_freezer Hagree).
Defined.

Lemma passing_path_extends_own_path_witness :
  in_expected_subcgroup "/a" "/a/benchmark_anything" = true
  /\ PyStr.startswith "/a/benchmark_anything" "/a" = true
  /\ (String.length "/a" + 10 <= String.length "/a/benchmark_anything")%nat
  /\ "/a/benchmark_anything" <> "/a".
Proof.
  split; [reflexivity|].
  exact (passing_path_extends_own_path "/a" "/a/benchmark_anything" eq_refl).
Defined.

Lemma probe_left_in_own_cgroups_fails_witness :
  required_present own_abc = true
  /\ probe_stage (sample_platform own_abc own_abc) 1 sample_spec own_abc
  /\ outcome (check_cgroup_availability (sample_platform own_abc own_abc) 1)
     = Raised (SystemExit 1)
  /\ deviations (trace (check_cgroup_availability (sample_platform own_abc own_abc) 1))
     = [CPUACCT; CPUSET; MEMORY].
Proof.
  split; [exact own_abc_required | split; [apply sample_probe_stage|]].
  destruct (probe_left_in_own_cgroups_fails (sample_platform own_abc own_abc) 1
              sample_spec own_abc_required (sample_probe_stage own_abc own_abc))
    as [Ho Hd].
  split; [exact Ho | rewrite Hd; reflexivity].
Defined.

Lemma kept_lines_are_clean_witness :
  sample_kept_line ∈ read_lines 1 sample_output
  /\ (exists raw, raw ∈ sample_output /\ sample_kept_line = PyStr.strip raw)
  /\ PyStr.strip sample_kept_line = sample_kept_line
  /\ sample_kept_line <> EmptyString
  /\ sample_kept_line
     <> "sh -c 'sleep " +:+ PyStr.str_of_int 1 +:+ "; cat /proc/self/cgroup'"
  /\ exists c, c ∈ list_ascii_of_string sample_kept_line /\ c <> "-"%char.
Proof.
  assert (sample_kept_line ∈ read_lines 1 sample_output) as Hin
    by (vm_compute; left).
  split; [exact Hin|].
  exact (kept_lines_are_clean 1 sample_output sample_kept_line Hin).
Defined.

Lemma read_lines_idempotent_and_local_witness :
  whitespace newline
  /\ read_lines 1 (sample_output ++ newline :: sample_output)
     = read_lines 1 (sample_output ++ sample_output).
Proof.
  assert (whitespace newline) as Hblank
    by (constructor; [reflexivity | constructor]).
  split; [exact Hblank|].
  destruct (read_lines_idempotent_and_local 1 sample_output sample_output newline)
    as (_ & _ & H).
  exact (H Hblank).
Defined.

Lemma wait_option_round_trip_witness :
  Z.of_nat (String.length (PyStr.str_of_int (-7))) <= 4300
  /\ PyStr.str_of_int (-7) = "-7"
  /\ parse_args (sample_platform own_abc placed_in_benchmark) ["--wait=-7"]
     = Returned (mkNamespace (-7) false)
  /\ parse_args (sample_platform own_abc placed_in_benchmark) ["--wait"; "-7"]
     = Returned (mkNamespace (-7) false).
Proof.
  assert (Z.of_nat (String.length (PyStr.str_of_int (-7))) <= 4300) as Hlen
    by (vm_compute; discriminate).
  split; [exact Hlen | split; [reflexivity|]].
  destruct (wait_option_round_trip (sample_platform own_abc placed_in_benchmark) (-7)
              "check_cgroups.py" Hlen) as (_ & H1 & H2 & _).
  split; [exact H1 | exact H2].
Defined.

Example sample_run_rejected_separator :
  main (sample_platform own_abc placed_in_benchmark)
    (Some ["check_cgroups.py"; "--wait=" +:+ String (ascii_of_nat 28) "5"; "--no-thread"])
  = ([], Raised (SystemExit 2)).
Proof. reflexivity. Qed.

